(** * SymbiYosys front-end ([sbysrc/sby.py]): preprocessor and job dispatcher

    A shallow embedding of [read_sbyconfig] (the line-oriented task/tag
    preprocessor) and of the per-task dispatcher ([run_job] and the
    top-level script around it), followed by the properties established
    about them.

    Conventions.
    - A Python [str] is a [string]; a character is a code point below 256.
    - A Python [set] of strings is a [gset string].  Python does not fix the
      order in which [for t in task_tags_all] visits the set, so the order is
      a parameter [set_iter] of the embedding.
    - [exec] of an embedded code block and the external engine [SbyJob] are
      parameters as well: their code is not part of this file.
    - Exceptions are values of [exn]; the file system is the set of the
      path names that exist. *)

From stdpp Require Import gmap strings list.
From Stdlib Require Import Ascii String DecimalString DecimalNat ZArith Lia.

Open Scope string_scope.

(** ** Python string primitives *)

Module Py.

(** [str.isspace] on one character, for code points below 256. *)
Definition is_space (c : ascii) : bool :=
  let n := nat_of_ascii c in
  (Nat.leb 9 n && Nat.leb n 13) || (Nat.leb 28 n && Nat.leb n 32)
  || Nat.eqb n 133 || Nat.eqb n 160.

(** [s.lstrip()] *)
Fixpoint lstrip (s : string) : string :=
  match s with
  | EmptyString => EmptyString
  | String c s' => if is_space c then lstrip s' else s
  end.

(** [s.rstrip(c)] for a one-character argument. *)
Fixpoint rstrip_char (c : ascii) (s : string) : string :=
  match s with
  | EmptyString => EmptyString
  | String a s' =>
      match rstrip_char c s' with
      | EmptyString => if Ascii.eqb a c then EmptyString else String a EmptyString
      | r => String a r
      end
  end.

(** [s[n:]] *)
Fixpoint drop (n : nat) (s : string) : string :=
  match n, s with
  | O, _ => s
  | S _, EmptyString => EmptyString
  | S n', String _ s' => drop n' s'
  end.

(** [s[:-n]] *)
Definition drop_last (n : nat) (s : string) : string :=
  String.substring 0 (String.length s - n) s.

(** [s.startswith(p)] *)
Definition startswith (s p : string) : bool := String.prefix p s.

(** [s.endswith(p)] *)
Definition endswith (s p : string) : bool :=
  String.prefix (String.rev p) (String.rev s).

(** [s.split()]: the maximal runs of non-space characters, in order. *)
Fixpoint split_go (cur : string) (s : string) : list string :=
  match s with
  | EmptyString => match cur with EmptyString => [] | _ => [cur] end
  | String a s' =>
      if is_space a
      then match cur with
           | EmptyString => split_go EmptyString s'
           | _ => cur :: split_go EmptyString s'
           end
      else split_go (cur +:+ String a EmptyString) s'
  end.

Definition split (s : string) : list string := split_go EmptyString s.

Definition LF : ascii := ascii_of_nat 10.
Definition CR : ascii := ascii_of_nat 13.
Definition nl : string := String LF EmptyString.

(** ["%03d" % n] for a non-negative [n]: decimal, zero-padded to width 3. *)
Definition decimal (n : nat) : string := NilEmpty.string_of_uint (Nat.to_uint n).

Fixpoint zeros (k : nat) : string :=
  match k with
  | O => EmptyString
  | S k' => String "0" (zeros k')
  end.

Definition fmt_03d (n : nat) : string :=
  let d := decimal n in zeros (3 - String.length d) +:+ d.

End Py.

(** ** Exceptions *)

Inductive exn : Type :=
  | AssertionError
  | TypeError
  | FileNotFoundError
  | FileExistsError
  | ExecError
  | EngineError
  | OutOfFuel.

Inductive result (A : Type) : Type :=
  | Ok (a : A)
  | Raise (e : exn).
Arguments Ok {A} a.
Arguments Raise {A} e.

(** ** The preprocessor: [read_sbyconfig] *)

(** The local variables of [read_sbyconfig]. *)
Record scan_state : Type := ScanState {
  cfgdata : list string;
  tasklist : list string;
  pycode : option string;
  tasks_section : bool;
  task_tags_active : gset string;
  task_tags_all : gset string;
  task_skip_block : bool;
  task_skiping_blocks : bool
}.

Definition scan_init : scan_state :=
  {| cfgdata := []; tasklist := []; pycode := None; tasks_section := false;
     task_tags_active := ∅; task_tags_all := ∅;
     task_skip_block := false; task_skiping_blocks := false |}.

Definition tasks_header : string := "[tasks]".
Definition pycode_begin : string := "--pycode-begin--".
Definition pycode_end : string := "--pycode-end--".
Definition block_end : string := "--".

(** The text put in front of an embedded code block before it is executed. *)
Definition output_prelude : string :=
  "def output(line):" +:+ Py.nl +:+ "  cfgdata.append(line)" +:+ Py.nl.

(** The body of [for t in task_tags_all], over the tags in visiting order:
    the first tag [t] such that the line starts with [t:] or [~t:] decides;
    the result is the rewritten line and the value of [match]. *)
Fixpoint find_tag (tags : list string) (active : gset string) (line : string)
  : option (string * bool) :=
  match tags with
  | [] => None
  | t :: tags' =>
      if Py.startswith line (t +:+ ":")
      then Some (Py.lstrip (Py.drop (String.length t + 1) line),
                 bool_decide (t ∈ active))
      else if Py.startswith line ("~" +:+ t +:+ ":")
      then Some (Py.lstrip (Py.drop (String.length t + 2) line),
                 negb (bool_decide (t ∈ active)))
      else find_tag tags' active line
  end.

(** What the tag loop leaves behind: the line, [task_skip_line] and the two
    block flags. *)
Record tag_outcome : Type := TagOutcome {
  to_line : string;
  to_skip_line : bool;
  to_skip_block : bool;
  to_skiping_blocks : bool
}.

(** [for t in line: ...] of the tasks section, [name] being [line[0]]. *)
Definition add_tags (taskname : option string) (name : string)
    (toks : list string) (tags : gset string * gset string)
  : gset string * gset string :=
  foldl (fun '(act, all) t =>
           ((if bool_decide (taskname = Some name) then {[t]} ∪ act else act),
            {[t]} ∪ all))
        tags toks.

(** The assignments to [tasks_section] and the two block flags that every
    iteration makes before it looks at the sinks. *)
Definition with_flags (st : scan_state) (in_tasks skip_block skiping : bool)
  : scan_state :=
  {| cfgdata := cfgdata st; tasklist := tasklist st; pycode := pycode st;
     tasks_section := in_tasks;
     task_tags_active := task_tags_active st;
     task_tags_all := task_tags_all st;
     task_skip_block := skip_block; task_skiping_blocks := skiping |}.

(** [line.rstrip("\n")] followed by [line.rstrip("\r")]. *)
Definition strip_eol (raw : string) : string :=
  Py.rstrip_char Py.CR (Py.rstrip_char Py.LF raw).

Section Preprocessor.

(** The order in which a [for] loop visits a set. *)
Variable set_iter : gset string → list string.

(** [exec(source, gdict)]: the lines in [cfgdata] afterwards, or failure.
    Its arguments are the source text, [taskname] and [cfgdata]. *)
Variable exec_pycode :
  string → option string → list string → option (list string).

(** Lines 132-150: the loop over the known tags. *)
Definition tag_loop (st : scan_state) (line : string) : tag_outcome :=
  match find_tag (set_iter (task_tags_all st)) (task_tags_active st) line with
  | None =>
      {| to_line := line; to_skip_line := false;
         to_skip_block := task_skip_block st;
         to_skiping_blocks := task_skiping_blocks st |}
  | Some (rest, m) =>
      if String.eqb rest ""
      then {| to_line := rest; to_skip_line := true;
              to_skip_block := negb m; to_skiping_blocks := true |}
      else {| to_line := rest; to_skip_line := negb m;
              to_skip_block := task_skip_block st;
              to_skiping_blocks := task_skiping_blocks st |}
  end.

(** Lines 155-181: the line that was not skipped goes to the tasks
    section, changes the mode, or is appended to a buffer. *)
Definition sink (taskname : option string) (st : scan_state) (line : string)
  : result scan_state :=
  if tasks_section st then
    match Py.split line with
    | [] => Ok st
    | (name :: _) as toks =>
        let '(act, all) :=
          add_tags taskname name toks
                   (task_tags_active st, task_tags_all st) in
        Ok {| cfgdata := cfgdata st; tasklist := tasklist st ++ [name];
              pycode := pycode st; tasks_section := true;
              task_tags_active := act; task_tags_all := all;
              task_skip_block := task_skip_block st;
              task_skiping_blocks := task_skiping_blocks st |}
    end
  else if String.eqb line tasks_header then
    Ok (with_flags st true (task_skip_block st) (task_skiping_blocks st))
  else if String.eqb line pycode_begin then
    Ok {| cfgdata := cfgdata st; tasklist := tasklist st;
          pycode := Some ""; tasks_section := false;
          task_tags_active := task_tags_active st;
          task_tags_all := task_tags_all st;
          task_skip_block := task_skip_block st;
          task_skiping_blocks := task_skiping_blocks st |}
  else if String.eqb line pycode_end then
    match pycode st with
    | None => Raise TypeError
    | Some code =>
        match exec_pycode (output_prelude +:+ code) taskname (cfgdata st) with
        | None => Raise ExecError
        | Some out =>
            Ok {| cfgdata := out; tasklist := tasklist st;
                  pycode := None; tasks_section := false;
                  task_tags_active := task_tags_active st;
                  task_tags_all := task_tags_all st;
                  task_skip_block := task_skip_block st;
                  task_skiping_blocks := task_skiping_blocks st |}
        end
    end
  else
    match pycode st with
    | None =>
        Ok {| cfgdata := cfgdata st ++ [line]; tasklist := tasklist st;
              pycode := None; tasks_section := false;
              task_tags_active := task_tags_active st;
              task_tags_all := task_tags_all st;
              task_skip_block := task_skip_block st;
              task_skiping_blocks := task_skiping_blocks st |}
    | Some code =>
        Ok {| cfgdata := cfgdata st; tasklist := tasklist st;
              pycode := Some (code +:+ line +:+ Py.nl);
              tasks_section := false;
              task_tags_active := task_tags_active st;
              task_tags_all := task_tags_all st;
              task_skip_block := task_skip_block st;
              task_skiping_blocks := task_skiping_blocks st |}
    end.

(** One iteration of [for line in sbydata]. *)
Definition scan_line (taskname : option string) (st : scan_state)
    (raw : string) : result scan_state :=
  let line := strip_eol raw in
  let in_tasks :=
    if tasks_section st && Py.startswith line "[" then false
    else tasks_section st in
  if task_skiping_blocks st && String.eqb line block_end then
    Ok (with_flags st in_tasks false false)
  else
    let o := tag_loop st line in
    let st1 := with_flags st in_tasks (to_skip_block o) (to_skiping_blocks o) in
    if to_skip_line o || to_skip_block o then Ok st1
    else sink taskname st1 (to_line o).

(** The whole loop, from a given state. *)
Fixpoint scan_from (taskname : option string) (st : scan_state)
    (sbydata : list string) : result scan_state :=
  match sbydata with
  | [] => Ok st
  | raw :: rest =>
      match scan_line taskname st raw with
      | Ok st' => scan_from taskname st' rest
      | Raise e => Raise e
      end
  end.

Definition scan (taskname : option string) (sbydata : list string)
  : result scan_state :=
  scan_from taskname scan_init sbydata.

Definition read_sbyconfig (sbydata : list string) (taskname : option string)
  : result (list string * list string) :=
  match scan taskname sbydata with
  | Ok st => Ok (cfgdata st, tasklist st)
  | Raise e => Raise e
  end.

End Preprocessor.

(** ** The dispatcher: the top-level script and [run_job] *)

(** What the script acts on: the path names that exist, the module-level
    list [early_logmsgs], and the engine jobs constructed so far (their
    configuration, task name and working directory). *)
Record world : Type := World {
  fs : gset string;
  early_logmsgs : list string;
  jobs : list (list string * option string * string)
}.

(** The module-level variables once the command line is parsed, and the
    lines read from the description file (or standard input). *)
Record invocation : Type := Invocation {
  sbyfile : option string;
  workdir : option string;
  tasknames : list string;
  opt_force : bool;
  opt_backup : bool;
  opt_tmpdir : bool;
  exe_paths : list (string * string);
  sbydata : list string
}.

(** Computations that read and write the [world] and may raise. *)
Definition M (A : Type) : Type := world → result A * world.

Definition ret {A} (a : A) : M A := λ w, (Ok a, w).
Definition raise {A} (e : exn) : M A := λ w, (Raise e, w).
Definition bind {A B} (m : M A) (k : A → M B) : M B :=
  λ w, match m w with
       | (Ok a, w') => k a w'
       | (Raise e, w') => (Raise e, w')
       end.
Definition lift {A} (r : result A) : M A := λ w, (r, w).

Declare Scope disp_scope.
Delimit Scope disp_scope with disp.
Notation "'let*' x ':=' m 'in' k" := (bind m (fun x => k))
  (at level 10, x name, m at level 100, k at level 200) : disp_scope.
Notation "'when' b 'then' m 'in' k" :=
  (bind (if b then m else ret tt) (fun _ => k))
  (at level 10, b at level 100, m at level 100, k at level 200) : disp_scope.
Open Scope disp_scope.

(** [os.path.exists] *)
Definition path_exists (p : string) : M bool :=
  λ w, (Ok (bool_decide (p ∈ fs w)), w).

(** [shutil.move(src, dst)] for a [dst] that does not exist: a rename,
    which fails when [src] does not exist. *)
Definition move (src dst : string) : M () :=
  λ w, if bool_decide (src ∈ fs w)
       then (Ok (), {| fs := {[dst]} ∪ fs w ∖ {[src]};
                       early_logmsgs := early_logmsgs w; jobs := jobs w |})
       else (Raise FileNotFoundError, w).

(** [shutil.rmtree(p, ignore_errors=True)] *)
Definition rmtree_ignore_errors (p : string) : M () :=
  λ w, (Ok (), {| fs := fs w ∖ {[p]};
                  early_logmsgs := early_logmsgs w; jobs := jobs w |}).

(** [os.makedirs(p)] *)
Definition makedirs (p : string) : M () :=
  λ w, if bool_decide (p ∈ fs w)
       then (Raise FileExistsError, w)
       else (Ok (), {| fs := {[p]} ∪ fs w;
                       early_logmsgs := early_logmsgs w; jobs := jobs w |}).

(** [early_log(workdir, msg)] *)
Definition early_log (workdir msg : string) : M () :=
  λ w, (Ok (), {| fs := fs w;
                  early_logmsgs :=
                    early_logmsgs w ++ ["SBY [" +:+ workdir +:+ "] " +:+ msg];
                  jobs := jobs w |}).

(** ["%s.bak%03d" % (my_workdir, backup_idx)] *)
Definition backup_name (my_workdir : string) (backup_idx : nat) : string :=
  my_workdir +:+ ".bak" +:+ Py.fmt_03d backup_idx.

(** [while os.path.exists(...): backup_idx += 1], at most [fuel] tests. *)
Fixpoint backup_scan (my_workdir : string) (fuel backup_idx : nat)
  : M nat :=
  match fuel with
  | O => raise OutOfFuel
  | S fuel' =>
      let* taken := path_exists (backup_name my_workdir backup_idx) in
      if taken then backup_scan my_workdir fuel' (S backup_idx)
      else ret backup_idx
  end.

(** Python's truth value of [sbyfile]. *)
Definition truthy (s : option string) : bool :=
  match s with
  | None => false
  | Some s => negb (String.eqb s "")
  end.

(** The resolve-dir step of [run_job]. *)
Definition resolve_dir (inv : invocation) (taskname : option string)
  : option string :=
  match workdir inv, sbyfile inv, opt_tmpdir inv with
  | None, Some f, false =>
      let d := Py.drop_last 4 f in
      Some (match taskname with
            | Some t => d +:+ "_" +:+ t
            | None => d
            end)
  | wd, _, _ => wd
  end.

(** A bound on the tests the loop can need: one more than the number of
    paths that exist. *)
Definition scan_bound : M nat := λ w, (Ok (S (size (fs w))), w).

(** The backup step of [run_job]. *)
Definition backup_step (my_workdir : string) : M () :=
  let* fuel := scan_bound in
  let* backup_idx := backup_scan my_workdir fuel 0 in
  let* _ := early_log my_workdir
              ("Moving direcory '" +:+ my_workdir +:+ "' to '"
               +:+ backup_name my_workdir backup_idx +:+ "'.") in
  move my_workdir (backup_name my_workdir backup_idx).

(** The force-clean step of [run_job]. *)
Definition force_step (inv : invocation) (my_workdir : string) : M () :=
  let* _ := early_log my_workdir
              ("Removing direcory '" +:+ my_workdir +:+ "'.") in
  if truthy (sbyfile inv) then rmtree_ignore_errors my_workdir else ret tt.

Section Dispatcher.

Variable set_iter : gset string → list string.
Variable exec_pycode :
  string → option string → list string → option (list string).

(** [tempfile.mkdtemp()]: the name chosen, given the existing paths. *)
Variable mkdtemp_name : gset string → string.

(** [SbyJob(...)] followed by [job.run()]: the job's [retcode] and the
    paths that exist afterwards, or an exception.  Its arguments are the
    configuration, the task name, the working directory, [early_logmsgs],
    [exe_paths] and the existing paths. *)
Variable engine :
  list string → option string → string → list string →
  list (string * string) → gset string → result (Z * gset string).

Definition mkdtemp : M string :=
  λ w, let d := mkdtemp_name (fs w) in
       (Ok d, {| fs := {[d]} ∪ fs w;
                 early_logmsgs := early_logmsgs w; jobs := jobs w |}).

Definition job_run (inv : invocation) (sbyconfig : list string)
    (taskname : option string) (my_workdir : string) : M Z :=
  λ w, let w1 := {| fs := fs w; early_logmsgs := early_logmsgs w;
                    jobs := jobs w ++ [(sbyconfig, taskname, my_workdir)] |} in
       match engine sbyconfig taskname my_workdir (early_logmsgs w)
                    (exe_paths inv) (fs w) with
       | Ok (rc, fs') =>
           (Ok rc, {| fs := fs'; early_logmsgs := early_logmsgs w1;
                      jobs := jobs w1 |})
       | Raise e => (Raise e, w1)
       end.

Definition run_job (inv : invocation) (taskname : option string) : M Z :=
  let* dir_tmp :=
    match resolve_dir inv taskname with
    | Some my_workdir =>
        when opt_backup inv then backup_step my_workdir in
        when opt_force inv then force_step inv my_workdir in
        let* _ := makedirs my_workdir in
        ret (my_workdir, opt_tmpdir inv)
    | None =>
        let* my_workdir := mkdtemp in
        ret (my_workdir, true)
    end in
  let '(my_workdir, my_opt_tmpdir) := dir_tmp in
  let* cfg := lift (read_sbyconfig set_iter exec_pycode (sbydata inv) taskname) in
  let* retcode := job_run inv (fst cfg) taskname my_workdir in
  when my_opt_tmpdir then rmtree_ignore_errors my_workdir in
  ret retcode.

(** Lines 191-194: the task names to run; [None] is the implicit task. *)
Definition resolve_tasknames (inv : invocation)
  : result (list (option string)) :=
  match tasknames inv with
  | [] =>
      match read_sbyconfig set_iter exec_pycode (sbydata inv) None with
      | Ok (_, []) => Ok [None]
      | Ok (_, found) => Ok (Some <$> found)
      | Raise e => Raise e
      end
  | given => Ok (Some <$> given)
  end.

(** The body of the final loop, for one [t]. *)
Definition run_task (inv : invocation) (all : list (option string))
    (t : option string) : M Z :=
  if bool_decide (t = None) || bool_decide (t ∈ all)
  then run_job inv t
  else raise AssertionError.

(** [for t in tasknames: retcode += run_job(t)], from a given [retcode]. *)
Fixpoint run_tasks (inv : invocation) (all todo : list (option string))
    (retcode : Z) : M Z :=
  match todo with
  | [] => ret retcode
  | t :: todo' =>
      let* rc := run_task inv all t in
      run_tasks inv all todo' (retcode + rc)%Z
  end.

(** Lines 93-196 of the script: the two assertions around the discovery of
    the task names. *)
Definition startup (inv : invocation) : M (list (option string)) :=
  let* _ :=
    match sbyfile inv with
    | Some f => if Py.endswith f ".sby" then ret tt else raise AssertionError
    | None => ret tt
    end in
  let* names := lift (resolve_tasknames inv) in
  let* _ :=
    if bool_decide (workdir inv = None) || Nat.eqb (List.length names) 1
    then ret tt else raise AssertionError in
  ret names.

(** The script from line 93 on; the result is the argument of
    [sys.exit]. *)
Definition main (inv : invocation) : M Z :=
  let* names := startup inv in
  run_tasks inv names names 0%Z.

(** The values [run_job(t)] returns to the final loop, in order. *)
Fixpoint retcodes (inv : invocation) (all todo : list (option string))
  : M (list Z) :=
  match todo with
  | [] => ret []
  | t :: todo' =>
      let* rc := run_task inv all t in
      let* rcs := retcodes inv all todo' in
      ret (rc :: rcs)
  end.

End Dispatcher.

(** ** Vocabulary of the statements *)

Definition sumZ (l : list Z) : Z := foldr Z.add 0%Z l.

(** A visiting order is admissible when it lists the elements of the set. *)
Definition visits_all (set_iter : gset string → list string) : Prop :=
  ∀ s, set_iter s ≡ₚ elements s.

(** An embedded code block that emits nothing, and an engine that fails
    exactly the task [q]. *)
Definition exec_nothing (_ : string) (_ : option string) (out : list string)
  : option (list string) := Some out.

Definition engine_q_fails (_ : list string) (taskname : option string)
    (_ : string) (_ : list string) (_ : list (string * string))
    (paths : gset string) : result (Z * gset string) :=
  Ok (if bool_decide (taskname = Some "q") then 1%Z else 0%Z, paths).

Definition tmp_name (_ : gset string) : string := "/tmp/tmpsby".

Definition world_empty : world :=
  {| fs := ∅; early_logmsgs := []; jobs := [] |}.

Definition inv_xpq : invocation :=
  {| sbyfile := Some "x.sby"; workdir := None; tasknames := ["p"; "q"];
     opt_force := false; opt_backup := false; opt_tmpdir := false;
     exe_paths := []; sbydata := [] |}.

Definition inv_pqr : invocation :=
  {| sbyfile := Some "x.sby"; workdir := None; tasknames := ["p"; "q"; "r"];
     opt_force := false; opt_backup := false; opt_tmpdir := false;
     exe_paths := []; sbydata := [] |}.

Definition inv_d_pq : invocation :=
  {| sbyfile := Some "x.sby"; workdir := Some "d"; tasknames := ["p"; "q"];
     opt_force := false; opt_backup := false; opt_tmpdir := false;
     exe_paths := []; sbydata := [] |}.

Definition inv_backup : invocation :=
  {| sbyfile := Some "x.sby"; workdir := None; tasknames := [];
     opt_force := false; opt_backup := true; opt_tmpdir := false;
     exe_paths := []; sbydata := [] |}.

Definition inv_force : invocation :=
  {| sbyfile := Some "x.sby"; workdir := None; tasknames := [];
     opt_force := true; opt_backup := false; opt_tmpdir := false;
     exe_paths := []; sbydata := [] |}.

(** The description comes from standard input, [-d d -f] is given. *)
Definition inv_stdin_d : invocation :=
  {| sbyfile := None; workdir := Some "d"; tasknames := [];
     opt_force := true; opt_backup := false; opt_tmpdir := false;
     exe_paths := []; sbydata := [] |}.

Definition world_d : world :=
  {| fs := {["d"]}; early_logmsgs := []; jobs := [] |}.

Definition world_x : world :=
  {| fs := {["x"]}; early_logmsgs := []; jobs := [] |}.

(** The force-clean sentence as the specification words it: the step never
    fails and leaves no directory at the target path. *)
Definition force_clean_always_removes : Prop :=
  ∀ inv my_workdir w,
    ∃ w', force_step inv my_workdir w = (Ok (), w') ∧ my_workdir ∉ fs w'.

(** The line starts with [t:] or with [~t:]. *)
Definition tag_prefixes (t line : string) : bool :=
  Py.startswith line (t +:+ ":") || Py.startswith line ("~" +:+ t +:+ ":").

(** No known tag other than [t] prefixes the line. *)
Definition no_other_tag (st : scan_state) (t line : string) : Prop :=
  ∀ t', t' ∈ task_tags_all st → t' ≠ t → tag_prefixes t' line = false.

(** No known tag prefixes the line. *)
Definition no_known_tag (st : scan_state) (line : string) : Prop :=
  ∀ t', t' ∈ task_tags_all st → tag_prefixes t' line = false.

(** The two outcomes of the tag loop on a single-line directive: the line is
    rewritten to [rest] and kept, or it is marked to be skipped; the block
    flags stay as they are. *)
Definition kept (st : scan_state) (rest : string) : tag_outcome :=
  {| to_line := rest; to_skip_line := false;
     to_skip_block := task_skip_block st;
     to_skiping_blocks := task_skiping_blocks st |}.

Definition dropped (st : scan_state) (rest : string) : tag_outcome :=
  {| to_line := rest; to_skip_line := true;
     to_skip_block := task_skip_block st;
     to_skiping_blocks := task_skiping_blocks st |}.

(** Tag polarity for the tag [t] and the remainder [X], as the
    specification words it. *)
Definition tag_polarity_at (set_iter : gset string → list string)
    (st : scan_state) (t X : string) : Prop :=
  let pos := t +:+ ":" +:+ X in
  let neg := "~" +:+ t +:+ ":" +:+ X in
  (t ∈ task_tags_active st →
   tag_loop set_iter st pos = kept st (Py.lstrip X)
   ∧ to_skip_line (tag_loop set_iter st neg) = true)
  ∧ (t ∉ task_tags_active st →
     to_skip_line (tag_loop set_iter st pos) = true
     ∧ tag_loop set_iter st neg = kept st (Py.lstrip X)).

Definition tag_polarity_for_every_tag
    (set_iter : gset string → list string) : Prop :=
  ∀ st t X,
    t ∈ task_tags_all st → Py.lstrip X ≠ "" → tag_polarity_at set_iter st t X.

(** The state after [[tasks]], [a:b], [a], [[options]] for the task [a]:
    the tags [a] and [a:b] are known, [a] is active. *)
Definition lines_ab : list string := ["[tasks]"; "a:b"; "a"; "[options]"].

Definition st_ab : scan_state :=
  {| cfgdata := ["[options]"]; tasklist := ["a:b"; "a"]; pycode := None;
     tasks_section := false;
     task_tags_active := {["a"]}; task_tags_all := {["a"; "a:b"]};
     task_skip_block := false; task_skiping_blocks := false |}.

(** Inside a block whose content is being dropped. *)
Definition suppressed (st : scan_state) : Prop :=
  task_skiping_blocks st = true ∧ task_skip_block st = true.

(** The tag loop takes the line for a block opener: some known tag prefixes
    it and nothing but white space follows the colon. *)
Definition opens_block (set_iter : gset string → list string)
    (st : scan_state) (line : string) : bool :=
  match find_tag (set_iter (task_tags_all st)) (task_tags_active st) line with
  | Some (rest, _) => String.eqb rest ""
  | None => false
  end.

(** Nothing was emitted, declared or buffered between the two states. *)
Definition same_sinks (st st' : scan_state) : Prop :=
  cfgdata st' = cfgdata st ∧ tasklist st' = tasklist st
  ∧ pycode st' = pycode st
  ∧ task_tags_active st' = task_tags_active st
  ∧ task_tags_all st' = task_tags_all st.

(** The suppressed-block sentence as the specification words it: from a
    state the scan can reach, a line other than [--] is discarded and leaves
    the block suppressed. *)
Definition suppression_lasts_until_block_end : Prop :=
  ∀ set_iter exec_pycode taskname before st raw,
    visits_all set_iter →
    scan set_iter exec_pycode taskname before = Ok st →
    suppressed st →
    strip_eol raw ≠ block_end →
    ∃ st', scan_line set_iter exec_pycode taskname st raw = Ok st'
           ∧ cfgdata st' = cfgdata st ∧ suppressed st'.

(** The state after [[tasks]], [a t], [[options]], [t:] when no task is
    requested: the block opened by [t:] is suppressed. *)
Definition lines_sup : list string := ["[tasks]"; "a t"; "[options]"; "t:"].

Definition st_sup : scan_state :=
  {| cfgdata := ["[options]"]; tasklist := ["a"]; pycode := None;
     tasks_section := false;
     task_tags_active := ∅; task_tags_all := {["a"; "t"]};
     task_skip_block := true; task_skiping_blocks := true |}.

Fixpoint contains_colon (s : string) : bool :=
  match s with
  | EmptyString => false
  | String c s' => Ascii.eqb c ":" || contains_colon s'
  end.

(** The code-generation sentence as the specification words it: between
    the markers every line goes to the procedure buffer as it is. *)
Definition pycode_lines_are_verbatim : Prop :=
  ∀ set_iter exec_pycode taskname before st buf raw,
    visits_all set_iter →
    scan set_iter exec_pycode taskname before = Ok st →
    pycode st = Some buf →
    strip_eol raw ≠ pycode_end →
    ∃ st', scan_line set_iter exec_pycode taskname st raw = Ok st'
           ∧ pycode st' = Some (buf +:+ strip_eol raw +:+ Py.nl).

(** The state after [[tasks]], [a], [[script]], [--pycode-begin--], when no
    task is requested and when the task [a] is. *)
Definition lines_py : list string :=
  ["[tasks]"; "a"; "[script]"; "--pycode-begin--"].

Definition st_py (active : gset string) : scan_state :=
  {| cfgdata := ["[script]"]; tasklist := ["a"]; pycode := Some "";
     tasks_section := false;
     task_tags_active := active; task_tags_all := {["a"]};
     task_skip_block := false; task_skiping_blocks := false |}.

(** The ordering sentence as the specification words it: a line that
    starts with [t:] or [~t:] while [t] is not declared yet is appended to
    the output as it is. *)
Definition undeclared_tag_line_passes_through : Prop :=
  ∀ set_iter exec_pycode taskname before st t raw,
    visits_all set_iter →
    scan set_iter exec_pycode taskname before = Ok st →
    t ∉ task_tags_all st →
    tag_prefixes t (strip_eol raw) = true →
    ∃ st', scan_line set_iter exec_pycode taskname st raw = Ok st'
           ∧ cfgdata st' = (cfgdata st ++ [strip_eol raw])%list.

(** The state after [[options]], before any [[tasks]] section. *)
Definition st_options : scan_state :=
  {| cfgdata := ["[options]"]; tasklist := []; pycode := None;
     tasks_section := false;
     task_tags_active := ∅; task_tags_all := ∅;
     task_skip_block := false; task_skiping_blocks := false |}.

(** The tasks section of the task-discovery example, and the states of the
    scan inside a tasks section at the top of a file. *)
Definition tasks_ab : list string := ["[tasks]"; "a t1 t2"; "b t2"].

Definition st_tasks (names : list string) (active all : gset string)
  : scan_state :=
  {| cfgdata := []; tasklist := names; pycode := None;
     tasks_section := true;
     task_tags_active := active; task_tags_all := all;
     task_skip_block := false; task_skiping_blocks := false |}.

(** Reading a zero-padded decimal back. *)
Definition read_decimal (s : string) : option nat :=
  Nat.of_uint <$> NilEmpty.uint_of_string s.

(** ** Vocabulary of the further properties *)

(** What holds of the variables of [read_sbyconfig] all along the scan for
    the task [taskname]: a suppressed block is an open block; an active tag
    is a known tag; a task name is a known tag; without a requested task no
    tag is active; an active tag set that is not empty holds the requested
    name, which is then in the task list. *)
Definition scan_invariant (taskname : option string) (st : scan_state)
  : Prop :=
  (task_skip_block st = true → task_skiping_blocks st = true)
  ∧ task_tags_active st ⊆ task_tags_all st
  ∧ (∀ name, name ∈ tasklist st → name ∈ task_tags_all st)
  ∧ (taskname = None → task_tags_active st = ∅)
  ∧ (∀ name, taskname = Some name → task_tags_active st ≠ ∅ →
       name ∈ task_tags_active st ∧ name ∈ tasklist st).

(** The code block has only added lines to the output. *)
Definition exec_appends
    (exec_pycode :
       string → option string → list string → option (list string)) : Prop :=
  ∀ source taskname out out',
    exec_pycode source taskname out = Some out' → out `prefix_of` out'.

(** The text of a code block: its lines, each followed by a newline. *)
Definition join_lines (lines : list string) : string :=
  foldr (λ line rest, line +:+ Py.nl +:+ rest) "" lines.

(** What one line can do to the task list and the two tag sets: nothing,
    or what a line [name tag ...] of the tasks section does. *)
Definition registry_step (taskname : option string) (st st' : scan_state)
  : Prop :=
  (tasklist st' = tasklist st
   ∧ task_tags_active st' = task_tags_active st
   ∧ task_tags_all st' = task_tags_all st)
  ∨ (∃ name toks,
       tasklist st' = (tasklist st ++ [name])%list
       ∧ task_tags_all st' = list_to_set (name :: toks) ∪ task_tags_all st
       ∧ task_tags_active st'
         = if bool_decide (taskname = Some name)
           then list_to_set (name :: toks) ∪ task_tags_active st
           else task_tags_active st).

(** A description whose second tasks line is read under a tag of the
    first. *)
Definition lines_reg : list string :=
  ["[tasks]"; "a x"; "b y"; "[options]"; "x:"; "mode bmc"].

Definition st_reg : scan_state :=
  {| cfgdata := ["[options]"]; tasklist := ["a"; "b"]; pycode := None;
     tasks_section := false;
     task_tags_active := {["a"; "x"]};
     task_tags_all := {["a"; "x"; "b"; "y"]};
     task_skip_block := false; task_skiping_blocks := false |}.

(** The state inside a code block whose text so far is [code], entered
    from [st] outside any tag block. *)
Definition buffering (st : scan_state) (code : string) : scan_state :=
  {| cfgdata := cfgdata st; tasklist := tasklist st; pycode := Some code;
     tasks_section := false;
     task_tags_active := task_tags_active st;
     task_tags_all := task_tags_all st;
     task_skip_block := false; task_skiping_blocks := false |}.

(** A line that the scan hands to the code block as it is. *)
Definition code_line (st : scan_state) (raw : string) : Prop :=
  no_known_tag st (strip_eol raw)
  ∧ strip_eol raw ≠ tasks_header
  ∧ strip_eol raw ≠ pycode_begin
  ∧ strip_eol raw ≠ pycode_end.

(** The same state inside a kept block. *)
Definition in_kept_block (st : scan_state) : scan_state :=
  with_flags st (tasks_section st) (task_skip_block st) true.

Definition result_map {A B} (f : A → B) (r : result A) : result B :=
  match r with
  | Ok a => Ok (f a)
  | Raise e => Raise e
  end.

(** A code block that emits one line per call of [output]: here, the
    line [depth 5]. *)
Definition exec_depth (_ : string) (_ : option string) (out : list string)
  : option (list string) := Some (out ++ ["depth 5"])%list.

(** Lines 208-221 of [run_job]: the steps that end with the working
    directory created. *)
Definition prepare_workdir (inv : invocation) (my_workdir : string) : M () :=
  when opt_backup inv then backup_step my_workdir in
  when opt_force inv then force_step inv my_workdir in
  makedirs my_workdir.

Section DispatcherParts.

Variable set_iter : gset string → list string.
Variable exec_pycode :
  string → option string → list string → option (list string).
Variable engine :
  list string → option string → string → list string →
  list (string * string) → gset string → result (Z * gset string).

(** Lines 227-240 of [run_job]: preprocess, run the engine, clean up. *)
Definition run_in (inv : invocation) (taskname : option string)
    (my_workdir : string) (my_opt_tmpdir : bool) : M Z :=
  let* cfg := lift (read_sbyconfig set_iter exec_pycode (sbydata inv) taskname) in
  let* retcode := job_run engine inv (fst cfg) taskname my_workdir in
  when my_opt_tmpdir then rmtree_ignore_errors my_workdir in
  ret retcode.

End DispatcherParts.

(** A computation that builds no job. *)
Definition keeps_jobs {A} (m : M A) : Prop :=
  ∀ w r w', m w = (r, w') → jobs w' = jobs w.

(** The task names of the jobs built so far. *)
Definition job_tasks (w : world) : list (option string) :=
  (λ job, job.1.2) <$> jobs w.

(** A description whose code block ends before it begins. *)
Definition inv_stray_end : invocation :=
  {| sbyfile := Some "x.sby"; workdir := None; tasknames := [];
     opt_force := false; opt_backup := false; opt_tmpdir := false;
     exe_paths := []; sbydata := ["[options]"; "--pycode-end--"] |}.

Definition inv_plain : invocation :=
  {| sbyfile := Some "x.sby"; workdir := None; tasknames := [];
     opt_force := false; opt_backup := false; opt_tmpdir := false;
     exe_paths := []; sbydata := ["[options]"; "mode bmc"] |}.

Definition inv_backup_force : invocation :=
  {| sbyfile := Some "x.sby"; workdir := None; tasknames := [];
     opt_force := true; opt_backup := true; opt_tmpdir := false;
     exe_paths := []; sbydata := [] |}.

Definition inv_stdin : invocation :=
  {| sbyfile := None; workdir := None; tasknames := [];
     opt_force := false; opt_backup := false; opt_tmpdir := false;
     exe_paths := []; sbydata := ["[options]"; "mode bmc"] |}.

Definition world_x_bak0 : world :=
  {| fs := {["x"; "x.bak000"]}; early_logmsgs := []; jobs := [] |}.

(** ** The command line (lines 24-30 and 61-98) *)

(** The module-level variables before the options are read; [lines] is
    what will be read from the description. *)
Definition invocation_init (lines : list string) : invocation :=
  {| sbyfile := None; workdir := None; tasknames := [];
     opt_force := false; opt_backup := false; opt_tmpdir := false;
     exe_paths := []; sbydata := lines |}.

(** [d[key] = value] on the entries of a dict, in insertion order. *)
Fixpoint dict_set (key value : string) (d : list (string * string))
  : list (string * string) :=
  match d with
  | [] => [(key, value)]
  | (k, v) :: d' =>
      if String.eqb k key then (k, value) :: d'
      else (k, v) :: dict_set key value d'
  end.

(** [d.get(key)] *)
Fixpoint dict_get (key : string) (d : list (string * string))
  : option string :=
  match d with
  | [] => None
  | (k, v) :: d' => if String.eqb k key then Some v else dict_get key d'
  end.

Definition set_workdir (inv : invocation) (a : string) : invocation :=
  {| sbyfile := sbyfile inv; workdir := Some a; tasknames := tasknames inv;
     opt_force := opt_force inv; opt_backup := opt_backup inv;
     opt_tmpdir := opt_tmpdir inv; exe_paths := exe_paths inv;
     sbydata := sbydata inv |}.

Definition set_flags (inv : invocation) (force backup tmpdir : bool)
  : invocation :=
  {| sbyfile := sbyfile inv; workdir := workdir inv;
     tasknames := tasknames inv;
     opt_force := force; opt_backup := backup; opt_tmpdir := tmpdir;
     exe_paths := exe_paths inv; sbydata := sbydata inv |}.

Definition set_tasknames (inv : invocation) (names : list string)
  : invocation :=
  {| sbyfile := sbyfile inv; workdir := workdir inv; tasknames := names;
     opt_force := opt_force inv; opt_backup := opt_backup inv;
     opt_tmpdir := opt_tmpdir inv; exe_paths := exe_paths inv;
     sbydata := sbydata inv |}.

Definition set_exe_path (inv : invocation) (tool a : string) : invocation :=
  {| sbyfile := sbyfile inv; workdir := workdir inv;
     tasknames := tasknames inv;
     opt_force := opt_force inv; opt_backup := opt_backup inv;
     opt_tmpdir := opt_tmpdir inv;
     exe_paths := dict_set tool a (exe_paths inv);
     sbydata := sbydata inv |}.

Definition set_sbyfile (inv : invocation) (f : string) : invocation :=
  {| sbyfile := Some f; workdir := workdir inv; tasknames := tasknames inv;
     opt_force := opt_force inv; opt_backup := opt_backup inv;
     opt_tmpdir := opt_tmpdir inv; exe_paths := exe_paths inv;
     sbydata := sbydata inv |}.

(** The body of [for o, a in opts]; [None] is [usage()], which ends the
    process with exit code 1. *)
Definition set_option (inv : invocation) (o a : string) : option invocation :=
  if String.eqb o "-d" then Some (set_workdir inv a)
  else if String.eqb o "-f"
  then Some (set_flags inv true (opt_backup inv) (opt_tmpdir inv))
  else if String.eqb o "-b"
  then Some (set_flags inv (opt_force inv) true (opt_tmpdir inv))
  else if String.eqb o "-t"
  then Some (set_flags inv (opt_force inv) (opt_backup inv) true)
  else if String.eqb o "-T"
  then Some (set_tasknames inv (tasknames inv ++ [a]))
  else if String.eqb o "--yosys" then Some (set_exe_path inv "yosys" a)
  else if String.eqb o "--abc" then Some (set_exe_path inv "abc" a)
  else if String.eqb o "--smtbmc" then Some (set_exe_path inv "smtbmc" a)
  else if String.eqb o "--suprove" then Some (set_exe_path inv "suprove" a)
  else if String.eqb o "--aigbmc" then Some (set_exe_path inv "aigbmc" a)
  else if String.eqb o "--avy" then Some (set_exe_path inv "avy" a)
  else None.

(** [for o, a in opts: ...], on the pairs that [getopt] returns. *)
Fixpoint set_options (inv : invocation) (opts : list (string * string))
  : option invocation :=
  match opts with
  | [] => Some inv
  | (o, a) :: opts' =>
      match set_option inv o a with
      | Some inv' => set_options inv' opts'
      | None => None
      end
  end.

(** Lines 93-98: the positional arguments. *)
Definition set_args (inv : invocation) (args : list string) : invocation :=
  match args with
  | [] => inv
  | f :: names =>
      match names with
      | [] => set_sbyfile inv f
      | _ :: _ => set_tasknames (set_sbyfile inv f) names
      end
  end.

(** Lines 61-98 after [getopt]. *)
Definition parse_cmdline (lines : list string)
    (opts : list (string * string)) (args : list string)
  : option invocation :=
  match set_options (invocation_init lines) opts with
  | Some inv => Some (set_args inv args)
  | None => None
  end.

(** The arguments given to the option [o], in order. *)
Definition option_values (o : string) (opts : list (string * string))
  : list string :=
  snd <$> List.filter (λ oa, String.eqb (fst oa) o) opts.

(** The option [o] occurs. *)
Definition option_given (o : string) (opts : list (string * string)) : bool :=
  existsb (λ oa, String.eqb (fst oa) o) opts.

(** [sby -f -d out -T p --yosys /a -d work --yosys /b x.sby], as [getopt]
    splits it. *)
Definition opts_sample : list (string * string) :=
  [("-f", ""); ("-d", "out"); ("-T", "p"); ("--yosys", "/a");
   ("-d", "work"); ("--yosys", "/b")].

(** The option names the loop knows. *)
Definition known_options : list string :=
  ["-d"; "-f"; "-b"; "-t"; "-T"; "--yosys"; "--abc"; "--smtbmc";
   "--suprove"; "--aigbmc"; "--avy"].

(** * Properties *)

(** Closed goals about concrete inputs are settled by evaluation. *)
Ltac computed := vm_compute; reflexivity.
Ltac differ := vm_compute; discriminate.

(** ** Strings *)

Lemma app_nil_l (s : string) : "" +:+ s = s.
Proof. reflexivity. Qed.

Lemma app_cons (c : ascii) (a b : string) :
  String c a +:+ b = String c (a +:+ b).
Proof. reflexivity. Qed.

Lemma app_length (a b : string) :
  String.length (a +:+ b) = String.length a + String.length b.
Proof.
  induction a as [|c a IH]; [done |].
  rewrite app_cons. simpl. by rewrite IH.
Qed.

Lemma app_assoc (a b c : string) : (a +:+ b) +:+ c = a +:+ b +:+ c.
Proof.
  induction a as [|x a IH]; [done |].
  rewrite !app_cons. by rewrite IH.
Qed.

Lemma prefix_app (p s : string) : String.prefix p (p +:+ s) = true.
Proof.
  induction p as [|c p IH]; [by destruct s |].
  rewrite app_cons. simpl. destruct (ascii_dec c c); [done | congruence].
Qed.

Lemma prefix_split (p s : string) :
  String.prefix p s = true → ∃ r, s = p +:+ r.
Proof.
  revert s. induction p as [|c p IH]; intros s H; simpl in *.
  - by exists s.
  - destruct s as [|d s]; [done |]. simpl in H.
    revert H. destruct (ascii_dec c d) as [->|]; intros H; [| done].
    destruct (IH _ H) as [r ->]. by exists r.
Qed.

Lemma drop_app (p s : string) : Py.drop (String.length p) (p +:+ s) = s.
Proof.
  induction p as [|c p IH]; [by destruct s |].
  rewrite app_cons. simpl. done.
Qed.

Lemma substring_app (a b : string) :
  String.substring 0 (String.length a) (a +:+ b) = a.
Proof.
  induction a as [|c a IH]; [by destruct b |].
  rewrite app_cons. simpl. by rewrite IH.
Qed.

Lemma drop_last_app (a b : string) :
  Py.drop_last (String.length b) (a +:+ b) = a.
Proof.
  unfold Py.drop_last. rewrite app_length.
  replace (String.length a + String.length b - String.length b)
    with (String.length a) by lia.
  apply substring_app.
Qed.

Lemma eqb_false (a b : string) : a ≠ b → String.eqb a b = false.
Proof. intros H. by apply String.eqb_neq. Qed.

(** ** Directory derivation *)

(** C7. With no explicit directory and no temporary directory requested, a
    description file [base.sby] gives the working directory [base] when the
    task name is absent and [base_task] for a task name [task]. *)
Theorem resolve_dir_from_sbyfile (inv : invocation) (base task : string) :
  workdir inv = None →
  opt_tmpdir inv = false →
  sbyfile inv = Some (base +:+ ".sby") →
  resolve_dir inv None = Some base
  ∧ resolve_dir inv (Some task) = Some (base +:+ "_" +:+ task).
Proof.
  intros Hwd Htmp Hfile. unfold resolve_dir. rewrite Hwd, Hfile, Htmp.
  change 4 with (String.length ".sby"). by rewrite drop_last_app.
Qed.

Lemma resolve_dir_from_sbyfile_x :
  resolve_dir inv_xpq None = Some "x"
  ∧ resolve_dir inv_xpq (Some "p") = Some "x_p"
  ∧ resolve_dir inv_xpq (Some "q") = Some "x_q".
Proof.
  destruct (resolve_dir_from_sbyfile inv_xpq "x" "p") as [H1 H2];
    [reflexivity | reflexivity | reflexivity |].
  destruct (resolve_dir_from_sbyfile inv_xpq "x" "q") as [_ H3];
    [reflexivity | reflexivity | reflexivity |].
  exact (conj H1 (conj H2 H3)).
Defined.

(** ** The tag loop *)

Lemma find_tag_none tags active line :
  (∀ t, t ∈ tags → tag_prefixes t line = false) →
  find_tag tags active line = None.
Proof.
  induction tags as [|t tags IH]; intros H; simpl; [done |].
  assert (tag_prefixes t line = false) as Ht by (apply H; left).
  apply orb_false_iff in Ht as [-> ->].
  apply IH. intros t' Ht'. apply H. by right.
Qed.

(** When a single tag of the list prefixes the line, its place in the
    visiting order does not matter. *)
Lemma find_tag_sole tags active t line :
  t ∈ tags →
  (∀ t', t' ∈ tags → t' ≠ t → tag_prefixes t' line = false) →
  find_tag tags active line = find_tag [t] active line.
Proof.
  induction tags as [|t0 tags IH]; intros Hin Hsole; [by inversion Hin |].
  destruct (decide (t0 = t)) as [->|Hne].
  - simpl. destruct (Py.startswith line (t +:+ ":")) eqn:H1; [done |].
    destruct (Py.startswith line ("~" +:+ t +:+ ":")) eqn:H2; [done |].
    destruct (decide (t ∈ tags)) as [Hin'|Hout].
    + rewrite IH; [simpl; by rewrite H1, H2 | done |].
      intros t' Ht' Hne'. apply Hsole; [by right | done].
    + apply find_tag_none. intros t' Ht'. apply Hsole; [by right |].
      intros ->. done.
  - assert (tag_prefixes t0 line = false) as Ht0 by (apply Hsole; [left | done]).
    apply orb_false_iff in Ht0 as [H1 H2].
    change (find_tag (t0 :: tags) active line)
      with (if Py.startswith line (t0 +:+ ":")
            then Some (Py.lstrip (Py.drop (String.length t0 + 1) line),
                       bool_decide (t0 ∈ active))
            else if Py.startswith line ("~" +:+ t0 +:+ ":")
            then Some (Py.lstrip (Py.drop (String.length t0 + 2) line),
                       negb (bool_decide (t0 ∈ active)))
            else find_tag tags active line).
    rewrite H1, H2. apply IH.
    + apply elem_of_cons in Hin as [->|]; done.
    + intros t' Ht' Hne'. apply Hsole; [by right | done].
Qed.

(** A line [~t:...] does not start with [t:]. *)
Lemma negated_is_not_plain (t X : string) :
  Py.startswith ("~" +:+ t +:+ ":" +:+ X) (t +:+ ":") = false.
Proof.
  unfold Py.startswith. induction t as [|c t IH].
  - simpl. destruct (ascii_dec ":" "~"); done.
  - change (String.prefix (String c (t +:+ ":"))
                           (String "~" (String c (t +:+ ":" +:+ X))) = false).
    simpl. destruct (ascii_dec c "~") as [->|]; [exact IH | done].
Qed.

Lemma find_tag_plain active t X :
  find_tag [t] active (t +:+ ":" +:+ X)
  = Some (Py.lstrip X, bool_decide (t ∈ active)).
Proof.
  rewrite <- (app_assoc t ":" X). unfold find_tag, Py.startswith.
  rewrite prefix_app.
  replace (String.length t + 1) with (String.length (t +:+ ":"))
    by (rewrite app_length; simpl; lia).
  by rewrite drop_app.
Qed.

Lemma find_tag_negated active t X :
  find_tag [t] active ("~" +:+ t +:+ ":" +:+ X)
  = Some (Py.lstrip X, negb (bool_decide (t ∈ active))).
Proof.
  unfold find_tag. rewrite negated_is_not_plain.
  rewrite <- (app_assoc t ":" X), <- (app_assoc "~" (t +:+ ":") X).
  rewrite <- (app_assoc "~" t ":").
  unfold Py.startswith. rewrite prefix_app.
  replace (String.length t + 2) with (String.length (("~" +:+ t) +:+ ":"))
    by (rewrite !app_length; simpl; lia).
  by rewrite drop_app.
Qed.

Section TagPolarity.

Variable set_iter : gset string → list string.
Hypothesis set_iter_all : visits_all set_iter.

Lemma elem_of_set_iter (s : gset string) (t : string) :
  t ∈ set_iter s ↔ t ∈ s.
Proof. by rewrite (set_iter_all s), elem_of_elements. Qed.

Lemma tag_loop_no_tag st line :
  no_known_tag st line → tag_loop set_iter st line = kept st line.
Proof.
  intros H. unfold tag_loop. rewrite find_tag_none; [done |].
  intros t Ht. apply H. by apply elem_of_set_iter.
Qed.

Lemma tag_loop_sole st t line :
  t ∈ task_tags_all st → no_other_tag st t line →
  find_tag (set_iter (task_tags_all st)) (task_tags_active st) line
  = find_tag [t] (task_tags_active st) line.
Proof.
  intros Hin Hsole. apply find_tag_sole; [by apply elem_of_set_iter |].
  intros t' Ht'. apply Hsole. by apply elem_of_set_iter.
Qed.


End TagPolarity.

(** Both side conditions can be checked by running over the known tags. *)
Lemma no_other_tag_check st t line :
  forallb (λ t', bool_decide (t' = t) || negb (tag_prefixes t' line))
          (elements (task_tags_all st)) = true →
  no_other_tag st t line.
Proof.
  intros H t' Hin Hne. rewrite forallb_forall in H.
  apply elem_of_elements, list_elem_of_In in Hin. specialize (H t' Hin).
  rewrite (bool_decide_eq_false_2 _ Hne) in H. simpl in H.
  by apply negb_true_iff in H.
Qed.

Lemma no_known_tag_check st line :
  forallb (λ t', negb (tag_prefixes t' line))
          (elements (task_tags_all st)) = true →
  no_known_tag st line.
Proof.
  intros H t' Hin. rewrite forallb_forall in H.
  apply elem_of_elements, list_elem_of_In in Hin. specialize (H t' Hin).
  by apply negb_true_iff in H.
Qed.

Lemma st_ab_active (t : string) : t ∈ task_tags_active st_ab ↔ t = "a".
Proof. exact (elem_of_singleton t "a"). Qed.

Lemma st_ab_all (t : string) : t ∈ task_tags_all st_ab ↔ t = "a" ∨ t = "a:b".
Proof.
  change (t ∈ ({["a"]} ∪ {["a:b"]} : gset string) ↔ t = "a" ∨ t = "a:b").
  by rewrite elem_of_union, !elem_of_singleton.
Qed.



(** ** One line of the scan *)

Lemma contains_colon_app (t r : string) :
  contains_colon (t +:+ ":" +:+ r) = true.
Proof.
  induction t as [|c t IH]; [done |].
  rewrite app_cons. simpl. rewrite IH. apply orb_true_r.
Qed.

Lemma startswith_colon (line t : string) :
  Py.startswith line (t +:+ ":") = true → contains_colon line = true.
Proof.
  intros H. apply prefix_split in H as [r ->].
  rewrite app_assoc. apply contains_colon_app.
Qed.

(** A line that a tag prefixes has a colon in it; the markers have none. *)
Lemma tag_prefixes_colon (t line : string) :
  tag_prefixes t line = true → contains_colon line = true.
Proof.
  intros [H|H]%orb_true_iff.
  - by apply startswith_colon with t.
  - apply startswith_colon with ("~" +:+ t). by rewrite app_assoc.
Qed.

Lemma find_tag_colon tags active line r :
  find_tag tags active line = Some r → contains_colon line = true.
Proof.
  induction tags as [|t tags IH]; simpl; [done |].
  destruct (Py.startswith line (t +:+ ":")) eqn:H1;
    [intros _; by apply startswith_colon with t |].
  destruct (Py.startswith line ("~" +:+ t +:+ ":")) eqn:H2; [| exact IH].
  intros _. apply tag_prefixes_colon with t. unfold tag_prefixes.
  rewrite H2. apply orb_true_r.
Qed.

Lemma find_tag_no_colon tags active line :
  contains_colon line = false → find_tag tags active line = None.
Proof.
  intros H. destruct (find_tag tags active line) as [r|] eqn:E; [| done].
  apply find_tag_colon in E. congruence.
Qed.

Lemma same_sinks_refl st : same_sinks st st.
Proof. by repeat split. Qed.

Lemma same_sinks_trans st1 st2 st3 :
  same_sinks st1 st2 → same_sinks st2 st3 → same_sinks st1 st3.
Proof.
  intros (H1 & H2 & H3 & H4 & H5) (K1 & K2 & K3 & K4 & K5).
  repeat split; congruence.
Qed.

Create HintDb sinks.
#[local] Hint Resolve same_sinks_refl same_sinks_trans : sinks.

Section ScanLine.

Variable set_iter : gset string → list string.
Variable exec_pycode :
  string → option string → list string → option (list string).

Local Abbreviation step := (scan_line set_iter exec_pycode).
Local Abbreviation steps := (scan_from set_iter exec_pycode).

Lemma scan_from_cons taskname st raw rest st' :
  step taskname st raw = Ok st' →
  steps taskname st (raw :: rest) = steps taskname st' rest.
Proof. intros H. simpl. by rewrite H. Qed.

Lemma scan_from_snoc taskname st lines st' raw :
  steps taskname st lines = Ok st' →
  steps taskname st (lines ++ [raw]) = step taskname st' raw.
Proof.
  revert st. induction lines as [|l lines IH]; intros st H; simpl in *.
  - injection H as ->. by destruct (step taskname st' raw).
  - destruct (step taskname st l) as [st1|e]; [by apply IH | done].
Qed.

(** The line [--] inside a block closes it and is not looked at further. *)
Lemma scan_line_block_end taskname st raw :
  task_skiping_blocks st = true →
  strip_eol raw = block_end →
  step taskname st raw
  = Ok (with_flags st (tasks_section st) false false).
Proof.
  intros Hsk Hline. unfold scan_line.
  rewrite Hline, Hsk. simpl. by rewrite andb_false_r.
Qed.

(** What a line inside a suppressed block does: nothing reaches a sink;
    the block flags change only when the line is [--] or a block opener. *)
Lemma scan_line_suppressed taskname st raw :
  suppressed st →
  ∃ st',
    step taskname st raw = Ok st'
    ∧ same_sinks st st'
    ∧ (strip_eol raw = block_end →
       task_skiping_blocks st' = false ∧ task_skip_block st' = false)
    ∧ (strip_eol raw ≠ block_end →
       match find_tag (set_iter (task_tags_all st)) (task_tags_active st)
                      (strip_eol raw) with
       | Some (rest, m) =>
           if String.eqb rest ""
           then task_skiping_blocks st' = true ∧ task_skip_block st' = negb m
           else suppressed st'
       | None => suppressed st'
       end).
Proof.
  intros [Hsk Hsb].
  destruct (decide (strip_eol raw = block_end)) as [Hend|Hne].
  - rewrite scan_line_block_end by done. eexists. split; [done |].
    split; [done |]. split; [done |]. done.
  - unfold scan_line, tag_loop.
    rewrite Hsk, (eqb_false _ _ Hne), Hsb. simpl.
    destruct (find_tag _ _ _) as [[rest m]|].
    + destruct (String.eqb rest ""); simpl.
      * eexists. split; [done |]. split; [done |]. split; [done |]. done.
      * rewrite orb_true_r. eexists. split; [done |]. split; [done |].
        split; [done |]. done.
    + simpl. eexists. split; [done |]. split; [done |]. split; [done |]. done.
Qed.


Lemma opens_block_same_sinks st st' line :
  same_sinks st st' →
  opens_block set_iter st' line = opens_block set_iter st line.
Proof. intros (_ & _ & _ & Ha & Hl). unfold opens_block. by rewrite Ha, Hl. Qed.

(** Lines that are neither [--] nor block openers leave a suppressed block
    suppressed, however many there are. *)
Lemma suppressed_run taskname st lines :
  suppressed st →
  Forall (λ raw, strip_eol raw ≠ block_end
                 ∧ opens_block set_iter st (strip_eol raw) = false) lines →
  ∃ st', steps taskname st lines = Ok st'
         ∧ same_sinks st st' ∧ suppressed st'.
Proof.
  intros Hsup Hlines. revert st Hsup Hlines.
  induction lines as [|raw lines IH]; intros st Hsup Hlines.
  - exists st. split; [done |]. split; [auto with sinks | done].
  - apply Forall_cons in Hlines as [[Hne Hopen] Hlines].
    destruct (scan_line_suppressed taskname st raw Hsup)
      as (st1 & Hstep & Hsame & _ & Hflags).
    specialize (Hflags Hne). unfold opens_block in Hopen.
    assert (suppressed st1) as Hsup1.
    { destruct (find_tag _ _ _) as [[rest m]|]; [| done].
      by rewrite Hopen in Hflags. }
    destruct (IH st1 Hsup1) as (st' & Hrun & Hsame' & Hsup').
    { eapply Forall_impl; [exact Hlines |]. intros l [? ?].
      split; [done |]. by rewrite (opens_block_same_sinks st st1). }
    exists st'. split; [by rewrite (scan_from_cons _ _ _ _ _ Hstep) |].
    split; [eauto with sinks | done].
Qed.

(** C2, amended.  Inside a suppressed block, every line that is neither
    [--] nor a block opener of a known tag is discarded and leaves the block
    suppressed.  The block ends at the next line that is exactly [--], or at
    the next block opener: both lines are discarded themselves, and after
    an opener the new block is suppressed exactly when its tag does not
    match. *)
Theorem suppressed_block_persists taskname st lines :
  suppressed st →
  Forall (λ raw, strip_eol raw ≠ block_end
                 ∧ opens_block set_iter st (strip_eol raw) = false) lines →
  ∃ st',
    steps taskname st lines = Ok st'
    ∧ same_sinks st st' ∧ suppressed st'
    ∧ (∀ raw, strip_eol raw = block_end →
         ∃ st'', step taskname st' raw = Ok st''
                 ∧ same_sinks st st''
                 ∧ task_skiping_blocks st'' = false
                 ∧ task_skip_block st'' = false)
    ∧ (∀ raw m,
         find_tag (set_iter (task_tags_all st)) (task_tags_active st)
                  (strip_eol raw) = Some ("", m) →
         ∃ st'', step taskname st' raw = Ok st''
                 ∧ same_sinks st st''
                 ∧ task_skiping_blocks st'' = true
                 ∧ task_skip_block st'' = negb m).
Proof.
  intros Hsup Hlines.
  destruct (suppressed_run taskname st lines Hsup Hlines)
    as (st' & Hrun & Hsame & Hsup').
  exists st'. split; [done |]. split; [done |]. split; [done |]. split.
  - intros raw Hend.
    destruct (scan_line_suppressed taskname st' raw Hsup')
      as (st'' & Hstep & Hsame' & Hflags & _).
    exists st''. split; [done |].
    split; [eauto with sinks |]. by apply Hflags.
  - intros raw m Hopen.
    destruct (scan_line_suppressed taskname st' raw Hsup')
      as (st'' & Hstep & Hsame' & _ & Hflags).
    exists st''. split; [done |].
    split; [eauto with sinks |].
    assert (strip_eol raw ≠ block_end) as Hne.
    { intros Heq. apply find_tag_colon in Hopen. by rewrite Heq in Hopen. }
    specialize (Hflags Hne).
    destruct Hsame as (_ & _ & _ & Ha & Hl). rewrite Ha, Hl, Hopen in Hflags.
    exact Hflags.
Qed.

End ScanLine.

(** C2 as the specification words it fails at a block opener.  With no
    task requested, after [[tasks]], [a t], [[options]], [t:] the block is
    suppressed; the line [~t:] is not [--], yet it ends the suppression, and
    the line [B] after it reaches the output before any [--]. *)
Lemma suppression_ends_at_block_opener :
  scan elements exec_nothing None lines_sup = Ok st_sup
  ∧ suppressed st_sup
  ∧ scan_line elements exec_nothing None st_sup "~t:"
    = Ok (with_flags st_sup false false true)
  ∧ read_sbyconfig elements exec_nothing
      (lines_sup ++ ["A"; "~t:"; "B"; "--"; "C"]) None
    = Ok (["[options]"; "B"; "C"], ["a"])
  ∧ ¬ suppression_lasts_until_block_end.
Proof.
  assert (scan elements exec_nothing None lines_sup = Ok st_sup) as Hreach
    by computed.
  assert (scan_line elements exec_nothing None st_sup "~t:"
          = Ok (with_flags st_sup false false true)) as Hstep
    by computed.
  assert (suppressed st_sup) as Hsup by (split; reflexivity).
  split; [exact Hreach |]. split; [exact Hsup |]. split; [exact Hstep |].
  split; [computed |].
  intros Hclaim.
  assert (visits_all elements) as Hall by (intros s; reflexivity).
  assert (strip_eol "~t:" ≠ block_end) as Hne by differ.
  destruct (Hclaim elements exec_nothing None lines_sup st_sup "~t:"
                   Hall Hreach Hsup Hne) as (st' & Hst' & _ & _ & Hblock).
  rewrite Hstep in Hst'. injection Hst' as <-. discriminate Hblock.
Qed.

Lemma suppressed_block_persists_sup :
  ∃ st',
    scan_from elements exec_nothing None st_sup
              ["A"; "t: x"; "~t: y"; "a: z"; "[options]"] = Ok st'
    ∧ same_sinks st_sup st' ∧ suppressed st'
    ∧ (∀ raw, strip_eol raw = block_end →
         ∃ st'', scan_line elements exec_nothing None st' raw = Ok st''
                 ∧ same_sinks st_sup st''
                 ∧ task_skiping_blocks st'' = false
                 ∧ task_skip_block st'' = false)
    ∧ (∀ raw m,
         find_tag (elements (task_tags_all st_sup)) (task_tags_active st_sup)
                  (strip_eol raw) = Some ("", m) →
         ∃ st'', scan_line elements exec_nothing None st' raw = Ok st''
                 ∧ same_sinks st_sup st''
                 ∧ task_skiping_blocks st'' = true
                 ∧ task_skip_block st'' = negb m).
Proof.
  apply (suppressed_block_persists elements exec_nothing None st_sup).
  - split; reflexivity.
  - repeat constructor; try (vm_compute; discriminate);
      vm_compute; reflexivity.
Defined.

(** ** Lines that no tag prefixes *)

Section PlainLines.

Variable set_iter : gset string → list string.
Variable exec_pycode :
  string → option string → list string → option (list string).
Hypothesis set_iter_all : visits_all set_iter.

(** Outside a suppressed block, a line that no known tag prefixes and that
    does not close a block goes to the sinks as it is. *)
Lemma scan_line_plain taskname st raw :
  no_known_tag st (strip_eol raw) →
  task_skip_block st = false →
  (task_skiping_blocks st = true → strip_eol raw ≠ block_end) →
  scan_line set_iter exec_pycode taskname st raw
  = sink exec_pycode taskname
         (with_flags st
            (if tasks_section st && Py.startswith (strip_eol raw) "["
             then false else tasks_section st)
            false (task_skiping_blocks st))
         (strip_eol raw).
Proof.
  intros Hno Hsb Hend. unfold scan_line.
  rewrite (tag_loop_no_tag set_iter set_iter_all st _ Hno). simpl.
  rewrite Hsb. simpl.
  destruct (task_skiping_blocks st) eqn:Hsk; [| done].
  by rewrite (eqb_false _ _ (Hend eq_refl)).
Qed.

(** The last branch of the sinks. *)
Lemma sink_buffers taskname st line :
  tasks_section st = false →
  line ≠ tasks_header → line ≠ pycode_begin → line ≠ pycode_end →
  sink exec_pycode taskname st line
  = Ok {| cfgdata := match pycode st with
                     | None => cfgdata st ++ [line]
                     | Some _ => cfgdata st
                     end;
          tasklist := tasklist st;
          pycode := match pycode st with
                    | None => None
                    | Some code => Some (code +:+ line +:+ Py.nl)
                    end;
          tasks_section := false;
          task_tags_active := task_tags_active st;
          task_tags_all := task_tags_all st;
          task_skip_block := task_skip_block st;
          task_skiping_blocks := task_skiping_blocks st |}.
Proof.
  intros Hts H1 H2 H3. unfold sink.
  rewrite Hts, (eqb_false _ _ H1), (eqb_false _ _ H2), (eqb_false _ _ H3).
  by destruct (pycode st).
Qed.



End PlainLines.

Lemma st_sup_all (t : string) : t ∈ task_tags_all st_sup ↔ t = "a" ∨ t = "t".
Proof.
  change (t ∈ ({["a"]} ∪ {["t"]} : gset string) ↔ t = "a" ∨ t = "t").
  by rewrite elem_of_union, !elem_of_singleton.
Qed.

Lemma visits_all_elements : visits_all elements.
Proof. intros s. reflexivity. Qed.





(** The ordering dependency on a whole file: for the task [b], the line
    [b: mode bmc] above the tasks section is emitted as it is, the same line
    below it is resolved. *)
Example directive_before_tasks_section :
  read_sbyconfig elements exec_nothing
    ["[options]"; "b: mode bmc"; "[tasks]"; "a"; "b"; "[engines]";
     "b: mode bmc"]
    (Some "b")
  = Ok (["[options]"; "b: mode bmc"; "[engines]"; "mode bmc"], ["a"; "b"]).
Proof. computed. Qed.

(** Block symmetry: a block is kept or dropped as a unit, the [--] line is
    dropped in both cases. *)
Example block_symmetry :
  read_sbyconfig elements exec_nothing
    ["[tasks]"; "t"; "[options]"; "t:"; "A"; "B"; "--"; "C"] (Some "t")
  = Ok (["[options]"; "A"; "B"; "C"], ["t"])
  ∧ read_sbyconfig elements exec_nothing
      ["[tasks]"; "t"; "[options]"; "t:"; "A"; "B"; "--"; "C"] None
    = Ok (["[options]"; "C"], ["t"]).
Proof. split; computed. Qed.

(** ** Task discovery *)

Section TaskDiscovery.

Variable set_iter : gset string → list string.
Variable exec_pycode :
  string → option string → list string → option (list string).
Hypothesis set_iter_all : visits_all set_iter.

(** One line of a tasks section, through [scan_line_plain]. *)
Lemma scan_line_tasks taskname st raw st' :
  forallb (λ t', negb (tag_prefixes t' (strip_eol raw)))
          (elements (task_tags_all st)) = true →
  task_skip_block st = false →
  task_skiping_blocks st = false →
  sink exec_pycode taskname
       (with_flags st
          (if tasks_section st && Py.startswith (strip_eol raw) "["
           then false else tasks_section st)
          false (task_skiping_blocks st))
       (strip_eol raw) = Ok st' →
  scan_line set_iter exec_pycode taskname st raw = Ok st'.
Proof.
  intros Hno Hsb Hsk Hsink.
  rewrite (scan_line_plain set_iter exec_pycode set_iter_all); try done.
  - by apply no_known_tag_check.
  - congruence.
Qed.

Lemma scan_tasks_ab_none :
  scan set_iter exec_pycode None tasks_ab
  = Ok (st_tasks ["a"; "b"] ∅ {["a"; "t1"; "t2"; "b"]}).
Proof.
  unfold scan, tasks_ab.
  rewrite (scan_from_cons _ _ _ _ _ _ (st_tasks [] ∅ ∅));
    [| apply scan_line_tasks; [| reflexivity ..]; vm_compute; reflexivity].
  rewrite (scan_from_cons _ _ _ _ _ _
             (st_tasks ["a"] ∅ {["a"; "t1"; "t2"]}));
    [| apply scan_line_tasks; [| reflexivity ..]; vm_compute; reflexivity].
  rewrite (scan_from_cons _ _ _ _ _ _
             (st_tasks ["a"; "b"] ∅ {["a"; "t1"; "t2"; "b"]}));
    [| apply scan_line_tasks; [| reflexivity ..]; vm_compute; reflexivity].
  reflexivity.
Qed.

Lemma scan_tasks_ab_a :
  scan set_iter exec_pycode (Some "a") tasks_ab
  = Ok (st_tasks ["a"; "b"] {["a"; "t1"; "t2"]} {["a"; "t1"; "t2"; "b"]}).
Proof.
  unfold scan, tasks_ab.
  rewrite (scan_from_cons _ _ _ _ _ _ (st_tasks [] ∅ ∅));
    [| apply scan_line_tasks; [| reflexivity ..]; vm_compute; reflexivity].
  rewrite (scan_from_cons _ _ _ _ _ _
             (st_tasks ["a"] {["a"; "t1"; "t2"]} {["a"; "t1"; "t2"]}));
    [| apply scan_line_tasks; [| reflexivity ..]; vm_compute; reflexivity].
  rewrite (scan_from_cons _ _ _ _ _ _
             (st_tasks ["a"; "b"] {["a"; "t1"; "t2"]}
                       {["a"; "t1"; "t2"; "b"]}));
    [| apply scan_line_tasks; [| reflexivity ..]; vm_compute; reflexivity].
  reflexivity.
Qed.

(** C4. For a file that consists of [[tasks]], [a t1 t2] and [b t2]:
    without a requested task the task list is [a, b], in file order;
    for the requested task [a] the active tag set is [{a, t1, t2}], the
    task's own name included. *)
Theorem task_discovery :
  read_sbyconfig set_iter exec_pycode tasks_ab None = Ok ([], ["a"; "b"])
  ∧ ∃ st, scan set_iter exec_pycode (Some "a") tasks_ab = Ok st
          ∧ task_tags_active st = {["a"; "t1"; "t2"]}.
Proof.
  split.
  - unfold read_sbyconfig. by rewrite scan_tasks_ab_none.
  - eexists. split; [apply scan_tasks_ab_a | reflexivity].
Qed.

End TaskDiscovery.

Lemma task_discovery_elements :
  read_sbyconfig elements exec_nothing tasks_ab None = Ok ([], ["a"; "b"])
  ∧ ∃ st, scan elements exec_nothing (Some "a") tasks_ab = Ok st
          ∧ task_tags_active st = {["a"; "t1"; "t2"]}.
Proof.
  exact (task_discovery elements exec_nothing visits_all_elements).
Defined.

(** ** Running a computation *)

Lemma bind_ok {A B} (m : M A) (k : A → M B) w a w' :
  m w = (Ok a, w') → bind m k w = k a w'.
Proof. unfold bind. by intros ->. Qed.

Lemma bind_raise {A B} (m : M A) (k : A → M B) w e w' :
  m w = (Raise e, w') → bind m k w = (Raise e, w').
Proof. unfold bind. by intros ->. Qed.

(** ** The final loop and the exit code *)

Section ExitCode.

Variable set_iter : gset string → list string.
Variable exec_pycode :
  string → option string → list string → option (list string).
Variable mkdtemp_name : gset string → string.
Variable engine :
  list string → option string → string → list string →
  list (string * string) → gset string → result (Z * gset string).

Local Abbreviation run_tasks := (run_tasks set_iter exec_pycode mkdtemp_name engine).
Local Abbreviation retcodes := (retcodes set_iter exec_pycode mkdtemp_name engine).
Local Abbreviation startup := (startup set_iter exec_pycode).
Local Abbreviation main := (main set_iter exec_pycode mkdtemp_name engine).

(** The accumulating loop adds the sum of the returned codes to its
    starting value, and stops where the first exception is raised. *)
Lemma run_tasks_retcodes inv all todo acc w :
  run_tasks inv all todo acc w =
  match retcodes inv all todo w with
  | (Ok rcs, w') => (Ok (acc + sumZ rcs)%Z, w')
  | (Raise e, w') => (Raise e, w')
  end.
Proof.
  revert acc w. induction todo as [|t todo IH]; intros acc w; simpl.
  - unfold ret. by rewrite Z.add_0_r.
  - destruct (run_task set_iter exec_pycode mkdtemp_name engine inv all t w)
      as [[rc|e] w1] eqn:Et.
    + rewrite !(bind_ok _ _ _ _ _ Et), IH.
      destruct (retcodes inv all todo w1) as [[rcs|e] w2] eqn:Er.
      * rewrite (bind_ok _ _ _ _ _ Er). unfold ret. simpl.
        by rewrite Z.add_assoc.
      * by rewrite (bind_raise _ _ _ _ _ Er).
    + by rewrite !(bind_raise _ _ _ _ _ Et).
Qed.

Lemma sumZ_nonneg (rcs : list Z) :
  Forall (λ rc, 0 ≤ rc)%Z rcs → (0 ≤ sumZ rcs)%Z.
Proof. induction 1; simpl; lia. Qed.

Lemma sumZ_zero (rcs : list Z) :
  Forall (λ rc, 0 ≤ rc)%Z rcs →
  sumZ rcs = 0%Z ↔ Forall (λ rc, rc = 0%Z) rcs.
Proof.
  induction 1 as [|rc rcs Hrc Hrcs IH]; simpl.
  - split; [constructor | done].
  - pose proof (sumZ_nonneg rcs Hrcs). split.
    + intros Hs. constructor; [lia |]. apply IH. lia.
    + intros Hz. inversion Hz as [|? ? H0 Hz']; subst.
      apply IH in Hz'. lia.
Qed.


(** C10. With an explicit working directory, a list of task names (given
    or discovered) whose length is not one makes the script stop at its
    assertion: nothing is logged, no path is touched and no job is built. *)
Theorem workdir_requires_one_task inv d names w :
  workdir inv = Some d →
  resolve_tasknames set_iter exec_pycode inv = Ok names →
  List.length names ≠ 1 →
  main inv w = (Raise AssertionError, w).
Proof.
  intros Hd Hn Hlen. unfold main, startup, bind, lift. rewrite Hn, Hd.
  assert (Nat.eqb (List.length names) 1 = false) as -> by by apply Nat.eqb_neq.
  destruct (sbyfile inv) as [f|]; [destruct (Py.endswith f ".sby") |]; done.
Qed.

End ExitCode.


Lemma workdir_requires_one_task_pq :
  main elements exec_nothing tmp_name engine_q_fails inv_d_pq world_empty
  = (Raise AssertionError, world_empty).
Proof.
  apply (workdir_requires_one_task elements exec_nothing tmp_name
           engine_q_fails inv_d_pq "d" [Some "p"; Some "q"]).
  - reflexivity.
  - reflexivity.
  - simpl. lia.
Defined.

(** ** Backup names *)

Lemma read_decimal_decimal (n : nat) : read_decimal (Py.decimal n) = Some n.
Proof.
  unfold read_decimal, Py.decimal. rewrite NilEmpty.usu. simpl.
  by rewrite Unsigned.of_to.
Qed.

Lemma read_decimal_zeros (k : nat) (s : string) :
  read_decimal (Py.zeros k +:+ s) = read_decimal s.
Proof.
  induction k as [|k IH]; [done |].
  simpl. rewrite app_cons. unfold read_decimal in *. simpl.
  destruct (NilEmpty.uint_of_string (Py.zeros k +:+ s)) as [d|];
    destruct (NilEmpty.uint_of_string s) as [d'|]; simpl in *;
    try done; by inversion IH.
Qed.

Lemma read_decimal_fmt (n : nat) : read_decimal (Py.fmt_03d n) = Some n.
Proof.
  unfold Py.fmt_03d. by rewrite read_decimal_zeros, read_decimal_decimal.
Qed.

Lemma fmt_03d_inj (n m : nat) : Py.fmt_03d n = Py.fmt_03d m → n = m.
Proof.
  intros H. apply (f_equal read_decimal) in H.
  rewrite !read_decimal_fmt in H. by inversion H.
Qed.

Lemma backup_name_inj (my_workdir : string) : Inj (=) (=) (backup_name my_workdir).
Proof.
  intros n m H. unfold backup_name in H.
  apply fmt_03d_inj. by do 2 apply (inj (String.app _)) in H.
Qed.

(** Some backup name among the first [size s + 1] is free: they are
    pairwise different, and only [size s] paths exist. *)
Lemma backup_name_free (my_workdir : string) (s : gset string) :
  ∃ j : nat, (j < S (size s))%nat ∧ backup_name my_workdir j ∉ s.
Proof.
  destruct (decide (Forall (λ j, backup_name my_workdir j ∈ s)
                           (seq 0 (S (size s))))) as [Hall|Hex].
  - exfalso.
    assert (backup_name my_workdir <$> seq 0 (S (size s)) ⊆+ elements s) as Hsub.
    { apply NoDup_submseteq.
      - apply NoDup_fmap_2; [apply backup_name_inj | apply NoDup_seq].
      - intros x [j [-> Hj]]%list_elem_of_fmap.
        apply elem_of_elements. rewrite Forall_forall in Hall. by apply Hall. }
    apply submseteq_length in Hsub.
    rewrite length_fmap, length_seq in Hsub.
    change (Datatypes.length (elements s)) with (size s) in Hsub. lia.
  - apply not_Forall_Exists in Hex; [| apply _].
    apply Exists_exists in Hex as [j [Hj Hfree]].
    apply elem_of_seq in Hj. exists j. split; [lia | done].
Qed.

(** The scan stops at the smallest free index at or above its start,
    provided its bound reaches that far. *)
Lemma backup_scan_least my_workdir (fuel backup_idx : nat) w (j : nat) :
  (backup_idx ≤ j)%nat → (j < backup_idx + fuel)%nat →
  backup_name my_workdir j ∉ fs w →
  ∃ N : nat, backup_scan my_workdir fuel backup_idx w = (Ok N, w)
       ∧ (backup_idx ≤ N)%nat ∧ (N ≤ j)%nat
       ∧ (backup_name my_workdir N ∉ fs w)
       ∧ ∀ k : nat, (backup_idx ≤ k)%nat → (k < N)%nat →
                    backup_name my_workdir k ∈ fs w.
Proof.
  revert backup_idx. induction fuel as [|fuel IH]; intros idx Hle Hlt Hfree;
    [lia |].
  simpl. unfold bind, path_exists.
  destruct (decide (backup_name my_workdir idx ∈ fs w)) as [Hin|Hout].
  - rewrite (bool_decide_eq_true_2 _ Hin).
    assert (idx ≠ j) by (intros ->; done).
    destruct (IH (S idx)) as (N & HN & Hb1 & Hb2 & HNfree & Hbelow);
      [lia | lia | done |].
    exists N. repeat split; [done | lia | lia | done |].
    intros k Hk1 Hk2. destruct (decide (k = idx)) as [->|]; [done |].
    apply Hbelow; lia.
  - rewrite (bool_decide_eq_false_2 _ Hout).
    exists idx. repeat split; [lia | lia | done |]. intros; lia.
Qed.

(** The bound used by [backup_step] is never reached. *)
Lemma backup_scan_total my_workdir w :
  ∃ N : nat, backup_scan my_workdir (S (size (fs w))) 0 w = (Ok N, w)
       ∧ (backup_name my_workdir N ∉ fs w)
       ∧ ∀ k : nat, (k < N)%nat → backup_name my_workdir k ∈ fs w.
Proof.
  destruct (backup_name_free my_workdir (fs w)) as (j & Hj & Hfree).
  destruct (backup_scan_least my_workdir (S (size (fs w))) 0 w j)
    as (N & HN & _ & _ & HNfree & Hbelow); [lia | lia | done |].
  exists N. split; [done |]. split; [done |]. intros k Hk. apply Hbelow; lia.
Qed.

(** The backup step on an existing directory: it is renamed to the free
    backup name of smallest index, and every other path stays. *)
Lemma backup_step_existing my_workdir w :
  my_workdir ∈ fs w →
  ∃ (N : nat) w',
    backup_step my_workdir w = (Ok (), w')
    ∧ (backup_name my_workdir N ∉ fs w)
    ∧ (∀ k : nat, (k < N)%nat → backup_name my_workdir k ∈ fs w)
    ∧ fs w' = {[backup_name my_workdir N]} ∪ fs w ∖ {[my_workdir]}
    ∧ (∀ p, p ∈ fs w → p ≠ my_workdir → p ∈ fs w').
Proof.
  intros Hin. destruct (backup_scan_total my_workdir w) as (N & HN & Hfree & Hbelow).
  exists N. eexists. split; [| split; [done | split; [done |]]].
  - unfold backup_step. rewrite (bind_ok scan_bound _ w _ w eq_refl).
    rewrite (bind_ok _ _ _ _ _ HN). unfold bind, early_log, move. simpl.
    rewrite (bool_decide_eq_true_2 _ Hin). reflexivity.
  - simpl. split; [done |]. intros p Hp Hne. set_solver.
Qed.

(** The backup step when the directory does not exist: [shutil.move]
    raises, after the message has been logged. *)
Lemma backup_step_missing my_workdir w :
  my_workdir ∉ fs w →
  ∃ N : nat,
    backup_step my_workdir w =
    (Raise FileNotFoundError,
     {| fs := fs w;
        early_logmsgs :=
          early_logmsgs w ++
          ["SBY [" +:+ my_workdir +:+ "] " +:+
           ("Moving direcory '" +:+ my_workdir +:+ "' to '"
            +:+ backup_name my_workdir N +:+ "'.")];
        jobs := jobs w |}).
Proof.
  intros Hout. destruct (backup_scan_total my_workdir w) as (N & HN & _).
  exists N. unfold backup_step. rewrite (bind_ok scan_bound _ w _ w eq_refl).
  rewrite (bind_ok _ _ _ _ _ HN). unfold bind, early_log, move. simpl.
  by rewrite (bool_decide_eq_false_2 _ Hout).
Qed.

(** ** Backup and force-clean *)

(** C6. With [-b] and a working directory that does not exist yet, the
    backup step does not skip the move: [shutil.move] raises
    [FileNotFoundError] right after the message is logged, and the script
    ends there.  (On an existing directory the step renames it to the free
    backup name of smallest index: [backup_step_existing].) *)
Theorem backup_of_missing_workdir_raises :
  main elements exec_nothing tmp_name engine_q_fails inv_backup world_empty
  = (Raise FileNotFoundError,
     {| fs := ∅;
        early_logmsgs := ["SBY [x] Moving direcory 'x' to 'x.bak000'."];
        jobs := [] |}).
Proof. vm_compute. reflexivity. Qed.

Lemma rev_app_length (s1 s2 : string) :
  String.length (String.rev_app s1 s2) = String.length s1 + String.length s2.
Proof.
  revert s2. induction s1 as [|c s1 IH]; intros s2; simpl; [done |].
  rewrite IH. simpl. lia.
Qed.

Lemma endswith_nonempty (f suffix : string) :
  suffix ≠ "" → Py.endswith f suffix = true → f ≠ "".
Proof.
  intros Hs He ->. unfold Py.endswith, String.rev in He. simpl in He.
  destruct (String.rev_app suffix "") as [|c r] eqn:Hr; [| done].
  apply (f_equal String.length) in Hr. rewrite rev_app_length in Hr.
  destruct suffix; [done | simpl in Hr; lia].
Qed.




(** * Further properties of the preprocessor *)

(** ** What the scan keeps *)

(** The loop of the tasks section in closed form. *)
Lemma add_tags_spec taskname name toks act all :
  add_tags taskname name toks (act, all)
  = ((if bool_decide (taskname = Some name)
      then list_to_set toks ∪ act else act),
     list_to_set toks ∪ all).
Proof.
  unfold add_tags. revert act all.
  induction toks as [|t toks IH]; intros act all; simpl.
  - destruct (bool_decide _); f_equal; set_solver.
  - rewrite IH. destruct (bool_decide _); f_equal; set_solver.
Qed.

Section ScanInvariant.

Variable set_iter : gset string → list string.
Variable exec_pycode :
  string → option string → list string → option (list string).

(** The sinks leave the block flags alone. *)
Lemma sink_flags taskname st line st' :
  sink exec_pycode taskname st line = Ok st' →
  task_skip_block st' = task_skip_block st
  ∧ task_skiping_blocks st' = task_skiping_blocks st.
Proof.
  unfold sink. intros H.
  repeat match type of H with
         | (if ?b then _ else _) = _ => destruct b
         | match ?x with _ => _ end = _ => destruct x
         end;
    try discriminate H; injection H as <-; done.
Qed.


(** The sinks touch the task list and the tag sets only in the tasks
    section. *)
Lemma sink_registry taskname st line st' :
  sink exec_pycode taskname st line = Ok st' →
  registry_step taskname st st'.
Proof.
  unfold sink. intros H. destruct (tasks_section st).
  - destruct (Py.split line) as [|name toks] eqn:Hsplit.
    + injection H as <-. by left.
    + rewrite add_tags_spec in H. injection H as <-.
      right. by exists name, toks.
  - left.
    repeat match type of H with
           | (if ?b then _ else _) = _ => destruct b
           | match ?x with _ => _ end = _ => destruct x
           end;
      try discriminate H; injection H as <-; done.
Qed.

(** The tag loop leaves the block flags alone or opens a block. *)
Lemma tag_loop_flags st line :
  (to_skip_block (tag_loop set_iter st line) = task_skip_block st
   ∧ to_skiping_blocks (tag_loop set_iter st line) = task_skiping_blocks st)
  ∨ to_skiping_blocks (tag_loop set_iter st line) = true.
Proof.
  unfold tag_loop. destruct (find_tag _ _ _) as [[rest m]|]; [| by left].
  destruct (String.eqb rest ""); [by right | by left].
Qed.

Lemma scan_line_flags taskname st raw st' :
  (task_skip_block st = true → task_skiping_blocks st = true) →
  scan_line set_iter exec_pycode taskname st raw = Ok st' →
  task_skip_block st' = true → task_skiping_blocks st' = true.
Proof.
  intros Hinv. unfold scan_line.
  destruct (task_skiping_blocks st && String.eqb (strip_eol raw) block_end).
  - intros H. injection H as <-. done.
  - set (o := tag_loop set_iter st (strip_eol raw)).
    assert (to_skip_block o = true → to_skiping_blocks o = true) as Ho.
    { destruct (tag_loop_flags st (strip_eol raw)) as [[Hb Hk]|Hk];
        fold o in Hb, Hk || fold o in Hk.
      - rewrite Hb, Hk. exact Hinv.
      - done. }
    destruct (to_skip_line o || to_skip_block o).
    + intros H. injection H as <-. exact Ho.
    + intros H. apply sink_flags in H as [-> ->]. exact Ho.
Qed.

Lemma scan_line_registry taskname st raw st' :
  scan_line set_iter exec_pycode taskname st raw = Ok st' →
  registry_step taskname st st'.
Proof.
  unfold scan_line.
  destruct (task_skiping_blocks st && String.eqb (strip_eol raw) block_end).
  - intros H. injection H as <-. by left.
  - destruct (to_skip_line _ || to_skip_block _).
    + intros H. injection H as <-. by left.
    + intros H. by apply sink_registry in H.
Qed.

End ScanInvariant.

Section ScanKeeps.

Variable set_iter : gset string → list string.
Variable exec_pycode :
  string → option string → list string → option (list string).

Lemma scan_invariant_init taskname : scan_invariant taskname scan_init.
Proof.
  repeat split; simpl; try done.
  all: intros name Hin; by apply elem_of_nil in Hin.
Qed.

Lemma scan_invariant_step taskname st raw st' :
  scan_invariant taskname st →
  scan_line set_iter exec_pycode taskname st raw = Ok st' →
  scan_invariant taskname st'.
Proof.
  intros (Hflags & Hsub & Hnames & Hnone & Hsome) Hstep.
  split; [by apply (scan_line_flags set_iter exec_pycode taskname st raw) |].
  apply scan_line_registry in Hstep
    as [(Hl & Ha & Hk)|(name & toks & Hl & Hk & Ha)].
  - rewrite Hl, Ha, Hk. done.
  - rewrite Hl, Hk, Ha. split; [| split; [| split]].
    + destruct (bool_decide _); set_solver.
    + intros n [Hn|Hn]%elem_of_app; [set_solver |].
      apply list_elem_of_singleton in Hn as ->. set_solver.
    + intros ->. rewrite bool_decide_eq_false_2 by done. by apply Hnone.
    + intros n -> Hne. destruct (decide (name = n)) as [->|Hdiff].
      * rewrite bool_decide_eq_true_2 by done.
        split; [set_solver |]. apply elem_of_app. right. by left.
      * rewrite bool_decide_eq_false_2 in Hne |- * by congruence.
        destruct (Hsome n eq_refl Hne) as [H1 H2].
        split; [done |]. apply elem_of_app. by left.
Qed.

Lemma scan_from_invariant taskname st lines st' :
  scan_invariant taskname st →
  scan_from set_iter exec_pycode taskname st lines = Ok st' →
  scan_invariant taskname st'.
Proof.
  revert st. induction lines as [|raw lines IH]; intros st Hinv H; simpl in H.
  - by injection H as <-.
  - destruct (scan_line set_iter exec_pycode taskname st raw) as [st1|e] eqn:E;
      [| done].
    apply (IH st1); [| done]. by apply scan_invariant_step with st raw.
Qed.

(** X1. Whatever the description, the visiting order and the code blocks
    do: when the scan ends, a suppressed block is an open block, every active
    tag and every task name is a known tag, no tag is active unless a task
    was requested, and an active tag set that is not empty contains the
    requested task name, which is then in the task list. *)
Theorem scan_keeps_invariant taskname lines st :
  scan set_iter exec_pycode taskname lines = Ok st →
  scan_invariant taskname st.
Proof.
  apply scan_from_invariant. apply scan_invariant_init.
Qed.

Lemma registry_step_grows taskname st st' :
  registry_step taskname st st' →
  tasklist st `prefix_of` tasklist st'
  ∧ task_tags_all st ⊆ task_tags_all st'
  ∧ task_tags_active st ⊆ task_tags_active st'.
Proof.
  intros [(Hl & Ha & Hk)|(name & toks & Hl & Hk & Ha)].
  - by rewrite Hl, Ha, Hk.
  - rewrite Hl, Hk, Ha. split; [by apply prefix_app_r |].
    split; [set_solver |]. destruct (bool_decide _); set_solver.
Qed.

(** X2. The scan never forgets: along any run of lines, from any state,
    the task list is only appended to and the two tag sets only grow. *)
Theorem scan_registry_grows taskname st lines st' :
  scan_from set_iter exec_pycode taskname st lines = Ok st' →
  tasklist st `prefix_of` tasklist st'
  ∧ task_tags_all st ⊆ task_tags_all st'
  ∧ task_tags_active st ⊆ task_tags_active st'.
Proof.
  revert st. induction lines as [|raw lines IH]; intros st H; simpl in H.
  - by injection H as <-.
  - destruct (scan_line set_iter exec_pycode taskname st raw) as [st1|e] eqn:E;
      [| done].
    apply scan_line_registry, registry_step_grows in E as (E1 & E2 & E3).
    destruct (IH st1 H) as (H1 & H2 & H3).
    split; [by trans (tasklist st1) |]. split; set_solver.
Qed.

End ScanKeeps.

Lemma scan_keeps_invariant_reg :
  ∃ st, scan elements exec_nothing (Some "a") lines_reg = Ok st
        ∧ scan_invariant (Some "a") st.
Proof.
  eexists. split; [vm_compute; reflexivity |].
  apply (scan_keeps_invariant elements exec_nothing (Some "a") lines_reg).
  vm_compute. reflexivity.
Defined.

Lemma scan_registry_grows_reg :
  scan_from elements exec_nothing (Some "a")
            (st_tasks ["a"] {["a"; "x"]} {["a"; "x"]})
            ["b y"; "[options]"] = Ok st_reg
  ∧ tasklist (st_tasks ["a"] {["a"; "x"]} {["a"; "x"]})
      `prefix_of` tasklist st_reg
  ∧ task_tags_all (st_tasks ["a"] {["a"; "x"]} {["a"; "x"]})
      ⊆ task_tags_all st_reg
  ∧ task_tags_active (st_tasks ["a"] {["a"; "x"]} {["a"; "x"]})
      ⊆ task_tags_active st_reg.
Proof.
  assert (scan_from elements exec_nothing (Some "a")
                    (st_tasks ["a"] {["a"; "x"]} {["a"; "x"]})
                    ["b y"; "[options]"] = Ok st_reg) as Hrun
    by (vm_compute; reflexivity).
  split; [exact Hrun |].
  exact (scan_registry_grows elements exec_nothing (Some "a") _ _ _ Hrun).
Defined.

(** ** Line ends *)

Lemma rstrip_char_snoc (c : ascii) (s : string) :
  Py.rstrip_char c (s +:+ String c "") = Py.rstrip_char c s.
Proof.
  induction s as [|a s IH].
  - simpl. by rewrite Ascii.eqb_refl.
  - rewrite app_cons. simpl. by rewrite IH.
Qed.

Lemma strip_eol_newline (raw : string) :
  strip_eol (raw +:+ Py.nl) = strip_eol raw.
Proof. unfold strip_eol, Py.nl. by rewrite rstrip_char_snoc. Qed.

Section LineEnds.

Variable set_iter : gset string → list string.
Variable exec_pycode :
  string → option string → list string → option (list string).

Lemma scan_line_newline taskname st raw :
  scan_line set_iter exec_pycode taskname st (raw +:+ Py.nl)
  = scan_line set_iter exec_pycode taskname st raw.
Proof. unfold scan_line. by rewrite strip_eol_newline. Qed.

Lemma scan_from_newline taskname st lines :
  scan_from set_iter exec_pycode taskname st ((λ l, l +:+ Py.nl) <$> lines)
  = scan_from set_iter exec_pycode taskname st lines.
Proof.
  revert st. induction lines as [|raw lines IH]; intros st; [done |].
  simpl. rewrite scan_line_newline.
  by destruct (scan_line set_iter exec_pycode taskname st raw).
Qed.

(** X3. Line ends do not matter: a description whose lines all carry their
    newline gives the same configuration and the same task list as the
    description without them. *)
Theorem read_sbyconfig_newlines lines taskname :
  read_sbyconfig set_iter exec_pycode ((λ l, l +:+ Py.nl) <$> lines) taskname
  = read_sbyconfig set_iter exec_pycode lines taskname.
Proof. unfold read_sbyconfig, scan. by rewrite scan_from_newline. Qed.

(** ** Lines without a colon *)

(** Markers and plain words are beyond the reach of the tag loop, whatever
    the tags and the order of the visit. *)
Lemma tag_loop_no_colon st line :
  contains_colon line = false → tag_loop set_iter st line = kept st line.
Proof.
  intros H. unfold tag_loop. by rewrite (find_tag_no_colon _ _ _ H).
Qed.

(** A line without a colon that does not close a block reaches the sinks
    as it is, unless a suppressed block is open. *)
Lemma scan_line_no_colon taskname st raw :
  contains_colon (strip_eol raw) = false →
  task_skip_block st = false →
  (task_skiping_blocks st = true → strip_eol raw ≠ block_end) →
  scan_line set_iter exec_pycode taskname st raw
  = sink exec_pycode taskname
         (with_flags st
            (if tasks_section st && Py.startswith (strip_eol raw) "["
             then false else tasks_section st)
            false (task_skiping_blocks st))
         (strip_eol raw).
Proof.
  intros Hcolon Hsb Hend. unfold scan_line.
  rewrite (tag_loop_no_colon st _ Hcolon). simpl. rewrite Hsb. simpl.
  destruct (task_skiping_blocks st) eqn:Hsk; [| done].
  by rewrite (eqb_false _ _ (Hend eq_refl)).
Qed.

(** X4. An end-marker that no begin-marker precedes makes the scan raise
    [TypeError], in every state outside the tasks section and outside a
    suppressed block; no tag can prevent it. *)
Theorem pycode_end_without_begin taskname st raw :
  strip_eol raw = pycode_end →
  pycode st = None →
  tasks_section st = false →
  task_skip_block st = false →
  scan_line set_iter exec_pycode taskname st raw = Raise TypeError.
Proof.
  intros Hline Hpy Hts Hsb.
  rewrite scan_line_no_colon; rewrite ?Hline; try done.
  unfold sink. simpl. by rewrite Hts, Hpy.
Qed.

(** X5. The line [--] closes an open block, kept or suppressed, and is
    dropped; outside a block (and outside the tasks section) it is an
    ordinary line: it is appended to the output, or to the code block that
    is open.  No tag changes this. *)
Theorem block_end_line taskname st raw :
  strip_eol raw = block_end →
  (task_skiping_blocks st = true →
   scan_line set_iter exec_pycode taskname st raw
   = Ok (with_flags st (tasks_section st) false false))
  ∧ (task_skiping_blocks st = false →
     task_skip_block st = false →
     tasks_section st = false →
     scan_line set_iter exec_pycode taskname st raw
     = Ok {| cfgdata := match pycode st with
                        | None => cfgdata st ++ [block_end]
                        | Some _ => cfgdata st
                        end;
             tasklist := tasklist st;
             pycode := match pycode st with
                       | None => None
                       | Some code => Some (code +:+ block_end +:+ Py.nl)
                       end;
             tasks_section := false;
             task_tags_active := task_tags_active st;
             task_tags_all := task_tags_all st;
             task_skip_block := false; task_skiping_blocks := false |}).
Proof.
  intros Hline. split.
  - intros Hsk. by apply scan_line_block_end.
  - intros Hsk Hsb Hts.
    rewrite scan_line_no_colon; rewrite ?Hline; try done; [| congruence].
    rewrite Hts, Hsk. unfold sink. simpl. by destruct (pycode st).
Qed.

End LineEnds.

Lemma pycode_end_without_begin_options :
  scan_line elements exec_nothing None st_options "--pycode-end--"
  = Raise TypeError.
Proof.
  apply (pycode_end_without_begin elements exec_nothing None st_options);
    reflexivity.
Defined.

Lemma block_end_line_options :
  scan_line elements exec_nothing None st_options "--"
  = Ok {| cfgdata := ["[options]"; "--"]; tasklist := []; pycode := None;
          tasks_section := false;
          task_tags_active := ∅; task_tags_all := ∅;
          task_skip_block := false; task_skiping_blocks := false |}.
Proof.
  apply (block_end_line elements exec_nothing None st_options "--");
    reflexivity.
Defined.

(** ** Code blocks *)

Lemma join_lines_snoc (code : string) (line : string) (rest : list string) :
  code +:+ join_lines (line :: rest)
  = (code +:+ line +:+ Py.nl) +:+ join_lines rest.
Proof. simpl. by rewrite !app_assoc. Qed.

Lemma app_empty_r (s : string) : s +:+ "" = s.
Proof. induction s as [|c s IH]; [done |]. by rewrite app_cons, IH. Qed.

Section CodeBlocks.

Variable set_iter : gset string → list string.
Variable exec_pycode :
  string → option string → list string → option (list string).
Hypothesis set_iter_all : visits_all set_iter.

Lemma scan_line_buffering taskname st code raw :
  code_line st raw →
  scan_line set_iter exec_pycode taskname (buffering st code) raw
  = Ok (buffering st (code +:+ strip_eol raw +:+ Py.nl)).
Proof.
  intros (Hno & H1 & H2 & H3).
  rewrite (scan_line_plain set_iter exec_pycode set_iter_all);
    [| exact Hno | done | done].
  simpl. by rewrite sink_buffers.
Qed.

Lemma scan_from_buffering taskname st code lines :
  Forall (code_line st) lines →
  scan_from set_iter exec_pycode taskname (buffering st code) lines
  = Ok (buffering st (code +:+ join_lines (strip_eol <$> lines))).
Proof.
  intros Hlines. revert code.
  induction Hlines as [|raw lines Hraw Hlines IH]; intros code.
  - simpl. by rewrite app_empty_r.
  - rewrite (scan_from_cons _ _ _ _ _ _ _ (scan_line_buffering _ _ _ _ Hraw)).
    rewrite IH. by rewrite fmap_cons, join_lines_snoc.
Qed.

(** X6. A code block between its two markers, met outside the tasks
    section and outside any tag block, is executed once: the source is the
    [output] prelude followed by the lines of the block, each with its
    newline, in order; what the code leaves in [cfgdata] is the output from
    then on; a failure of the code ends the scan.  What an earlier,
    unfinished block had buffered is discarded. *)
Theorem code_block_runs taskname st lines :
  tasks_section st = false →
  task_skip_block st = false →
  task_skiping_blocks st = false →
  Forall (code_line st) lines →
  scan_from set_iter exec_pycode taskname st
            ([pycode_begin] ++ lines ++ [pycode_end])
  = match exec_pycode (output_prelude +:+ join_lines (strip_eol <$> lines))
                      taskname (cfgdata st) with
    | Some out =>
        Ok {| cfgdata := out; tasklist := tasklist st; pycode := None;
              tasks_section := false;
              task_tags_active := task_tags_active st;
              task_tags_all := task_tags_all st;
              task_skip_block := false; task_skiping_blocks := false |}
    | None => Raise ExecError
    end.
Proof.
  intros Hts Hsb Hsk Hlines.
  assert (scan_line set_iter exec_pycode taskname st pycode_begin
          = Ok (buffering st "")) as Hbegin.
  { rewrite scan_line_no_colon; [| done | done | by rewrite Hsk].
    rewrite Hts, Hsk. reflexivity. }
  change ([pycode_begin] ++ lines ++ [pycode_end])%list
    with (pycode_begin :: (lines ++ [pycode_end]))%list.
  rewrite (scan_from_cons _ _ _ _ _ _ _ Hbegin).
  rewrite (scan_from_snoc _ _ _ _ _ _ _ (scan_from_buffering _ _ _ _ Hlines)).
  rewrite scan_line_no_colon; [| done | done | done].
  unfold sink. simpl. by destruct (exec_pycode _ _ _).
Qed.

End CodeBlocks.

Section Output.

Variable set_iter : gset string → list string.
Variable exec_pycode :
  string → option string → list string → option (list string).
Hypothesis exec_extends : exec_appends exec_pycode.

Lemma sink_appends taskname st line st' :
  sink exec_pycode taskname st line = Ok st' →
  cfgdata st `prefix_of` cfgdata st'.
Proof.
  unfold sink. intros H. destruct (tasks_section st).
  - destruct (Py.split line); [by injection H as <- |].
    destruct (add_tags _ _ _ _). by injection H as <-.
  - destruct (String.eqb line tasks_header); [by injection H as <- |].
    destruct (String.eqb line pycode_begin); [by injection H as <- |].
    destruct (String.eqb line pycode_end).
    + destruct (pycode st); [| done].
      destruct (exec_pycode _ _ _) as [out|] eqn:E; [| done].
      injection H as <-. simpl. by apply exec_extends in E.
    + destruct (pycode st); injection H as <-; simpl;
        [done | by apply prefix_app_r].
Qed.

Lemma scan_line_appends taskname st raw st' :
  scan_line set_iter exec_pycode taskname st raw = Ok st' →
  cfgdata st `prefix_of` cfgdata st'.
Proof.
  unfold scan_line.
  destruct (task_skiping_blocks st && String.eqb (strip_eol raw) block_end).
  - intros H. by injection H as <-.
  - destruct (to_skip_line _ || to_skip_block _).
    + intros H. by injection H as <-.
    + intros H. by apply sink_appends in H.
Qed.

(** X7. The output is append-only: as long as the embedded code only adds
    lines, as its [output] function does, no line once emitted is changed or
    removed by anything that follows in the description. *)
Theorem output_append_only taskname st lines st' :
  scan_from set_iter exec_pycode taskname st lines = Ok st' →
  cfgdata st `prefix_of` cfgdata st'.
Proof.
  revert st. induction lines as [|raw lines IH]; intros st H; simpl in H.
  - by injection H as <-.
  - destruct (scan_line set_iter exec_pycode taskname st raw) as [st1|e] eqn:E;
      [| done].
    apply scan_line_appends in E. trans (cfgdata st1); [done | by apply IH].
Qed.

End Output.

Section KeptBlock.

Variable set_iter : gset string → list string.
Variable exec_pycode :
  string → option string → list string → option (list string).

Lemma sink_in_kept_block taskname st line :
  sink exec_pycode taskname (in_kept_block st) line
  = result_map in_kept_block (sink exec_pycode taskname st line).
Proof.
  unfold sink. simpl. destruct (tasks_section st).
  - destruct (Py.split line); [done |]. by destruct (add_tags _ _ _ _).
  - destruct (String.eqb line tasks_header); [done |].
    destruct (String.eqb line pycode_begin); [done |].
    destruct (String.eqb line pycode_end).
    + destruct (pycode st); [| done]. by destruct (exec_pycode _ _ _).
    + by destruct (pycode st).
Qed.

(** X8. A kept block is transparent: inside it, every line other than
    [--] is treated exactly as outside a block; the only difference is that
    the block is still open afterwards. *)
Theorem kept_block_transparent taskname st raw :
  task_skip_block st = false →
  strip_eol raw ≠ block_end →
  scan_line set_iter exec_pycode taskname (in_kept_block st) raw
  = result_map in_kept_block
      (scan_line set_iter exec_pycode taskname st raw).
Proof.
  intros Hsb Hne. unfold scan_line, tag_loop. simpl.
  rewrite (eqb_false _ _ Hne), andb_false_r, Hsb. simpl.
  destruct (find_tag _ _ _) as [[rest m]|].
  - destruct (String.eqb rest ""); simpl.
    + done.
    + destruct (negb m); simpl; [done |].
      rewrite <- sink_in_kept_block. done.
  - simpl. rewrite <- sink_in_kept_block. done.
Qed.

End KeptBlock.

Lemma exec_depth_appends : exec_appends exec_depth.
Proof.
  intros source taskname out out' H. injection H as <-. by apply prefix_app_r.
Qed.

Lemma code_block_runs_ab :
  scan_from elements exec_depth (Some "a") st_ab
            (["--pycode-begin--"] ++ ["for d in [5]:"; "  output(d)"]
             ++ ["--pycode-end--"])
  = Ok {| cfgdata := ["[options]"; "depth 5"]; tasklist := ["a:b"; "a"];
          pycode := None; tasks_section := false;
          task_tags_active := {["a"]}; task_tags_all := {["a"; "a:b"]};
          task_skip_block := false; task_skiping_blocks := false |}.
Proof.
  apply (code_block_runs elements exec_depth visits_all_elements
           (Some "a") st_ab ["for d in [5]:"; "  output(d)"]).
  - reflexivity.
  - reflexivity.
  - reflexivity.
  - repeat constructor;
      try (apply no_known_tag_check; vm_compute; reflexivity);
      vm_compute; discriminate.
Defined.

Lemma output_append_only_options :
  scan_from elements exec_depth None st_options
            ["mode bmc"; "--pycode-begin--"; "--pycode-end--"]
  = Ok {| cfgdata := ["[options]"; "mode bmc"; "depth 5"]; tasklist := [];
          pycode := None; tasks_section := false;
          task_tags_active := ∅; task_tags_all := ∅;
          task_skip_block := false; task_skiping_blocks := false |}
  ∧ cfgdata st_options
      `prefix_of` ["[options]"; "mode bmc"; "depth 5"].
Proof.
  assert (scan_from elements exec_depth None st_options
                    ["mode bmc"; "--pycode-begin--"; "--pycode-end--"]
          = Ok {| cfgdata := ["[options]"; "mode bmc"; "depth 5"];
                  tasklist := []; pycode := None; tasks_section := false;
                  task_tags_active := ∅; task_tags_all := ∅;
                  task_skip_block := false; task_skiping_blocks := false |})
    as Hrun by (vm_compute; reflexivity).
  split; [exact Hrun |].
  exact (output_append_only elements exec_depth exec_depth_appends
           None st_options _ _ Hrun).
Defined.

Lemma kept_block_transparent_options :
  scan_line elements exec_nothing None (in_kept_block st_options) "mode bmc"
  = result_map in_kept_block
      (scan_line elements exec_nothing None st_options "mode bmc").
Proof.
  apply (kept_block_transparent elements exec_nothing None st_options).
  - reflexivity.
  - vm_compute. discriminate.
Defined.

(** ** The end of the tasks section *)

Section TasksSectionEnds.

Variable set_iter : gset string → list string.
Variable exec_pycode :
  string → option string → list string → option (list string).
Hypothesis set_iter_all : visits_all set_iter.


End TasksSectionEnds.


(** * Further properties of the dispatcher *)

Lemma backup_name_longer (my_workdir : string) (n : nat) :
  backup_name my_workdir n ≠ my_workdir.
Proof.
  intros H. apply (f_equal String.length) in H.
  unfold backup_name in H. rewrite !app_length in H. simpl in H. lia.
Qed.

Lemma restore_after_move (d b : string) (s : gset string) :
  d ∈ s → b ≠ d →
  (d ∉ {[b]} ∪ s ∖ {[d]})
  ∧ {[d]} ∪ ({[b]} ∪ s ∖ {[d]}) = {[b]} ∪ s
  ∧ {[d]} ∪ ({[b]} ∪ s ∖ {[d]}) ∖ {[d]} = {[b]} ∪ s.
Proof.
  intros Hin Hne. split; [| split].
  - rewrite elem_of_union, elem_of_difference, !elem_of_singleton.
    intros [H|[_ H]]; congruence.
  - apply set_eq. intros x.
    rewrite !elem_of_union, elem_of_difference, !elem_of_singleton.
    destruct (decide (x = d)) as [->|]; naive_solver.
  - apply set_eq. intros x.
    rewrite !elem_of_union, !elem_of_difference, elem_of_union,
      elem_of_difference, !elem_of_singleton.
    destruct (decide (x = d)) as [->|]; naive_solver.
Qed.

Section RunJob.

Variable set_iter : gset string → list string.
Variable exec_pycode :
  string → option string → list string → option (list string).
Variable mkdtemp_name : gset string → string.
Variable engine :
  list string → option string → string → list string →
  list (string * string) → gset string → result (Z * gset string).

Local Abbreviation run := (run_job set_iter exec_pycode mkdtemp_name engine).
Local Abbreviation finish := (run_in set_iter exec_pycode engine).

(** [run_job] with a named directory is the preparation of the directory
    followed by the rest. *)
Lemma run_job_named inv taskname my_workdir w :
  resolve_dir inv taskname = Some my_workdir →
  run inv taskname w
  = match prepare_workdir inv my_workdir w with
    | (Ok _, w1) => finish inv taskname my_workdir (opt_tmpdir inv) w1
    | (Raise e, w1) => (Raise e, w1)
    end.
Proof.
  intros Hd. unfold run_job, prepare_workdir, run_in. rewrite Hd.
  unfold bind.
  destruct ((if opt_backup inv then backup_step my_workdir else ret ()) w)
    as [[[]|e] w1]; [| done].
  destruct ((if opt_force inv then force_step inv my_workdir else ret ()) w1)
    as [[[]|e] w2]; [| done].
  destruct (makedirs my_workdir w2) as [[[]|e] w3]; done.
Qed.

(** [run_job] without one works in a fresh temporary directory. *)
Lemma run_job_temporary inv taskname w :
  resolve_dir inv taskname = None →
  run inv taskname w
  = finish inv taskname (mkdtemp_name (fs w)) true
      {| fs := {[mkdtemp_name (fs w)]} ∪ fs w;
         early_logmsgs := early_logmsgs w; jobs := jobs w |}.
Proof. intros Hd. unfold run_job, run_in. rewrite Hd. reflexivity. Qed.

End RunJob.

Section RunJobProperties.

Variable set_iter : gset string → list string.
Variable exec_pycode :
  string → option string → list string → option (list string).
Variable mkdtemp_name : gset string → string.
Variable engine :
  list string → option string → string → list string →
  list (string * string) → gset string → result (Z * gset string).

Local Abbreviation run := (run_job set_iter exec_pycode mkdtemp_name engine).
Local Abbreviation finish := (run_in set_iter exec_pycode engine).

(** X10. A working directory that exists already is fatal for the task
    when neither [-b] nor [-f] is given: [os.makedirs] raises
    [FileExistsError] before the description is preprocessed; nothing is
    logged, no path changes and no job is built. *)
Theorem existing_workdir_is_fatal inv taskname my_workdir w :
  resolve_dir inv taskname = Some my_workdir →
  opt_backup inv = false →
  opt_force inv = false →
  my_workdir ∈ fs w →
  run inv taskname w = (Raise FileExistsError, w).
Proof.
  intros Hd Hb Hf Hin. rewrite (run_job_named _ _ _ _ _ _ my_workdir) by done.
  unfold prepare_workdir, bind. rewrite Hb, Hf. unfold ret, makedirs.
  by rewrite (bool_decide_eq_true_2 _ Hin).
Qed.




End RunJobProperties.

Lemma x_in_world_x_bak0 : "x" ∈ fs world_x_bak0.
Proof.
  change ("x" ∈ ({["x"]} ∪ {["x.bak000"]} : gset string)).
  apply elem_of_union_l. by apply elem_of_singleton.
Qed.

Lemma x_in_world_x : "x" ∈ fs world_x.
Proof. exact (proj2 (elem_of_singleton "x" "x") eq_refl). Qed.

Lemma existing_workdir_is_fatal_x :
  run_job elements exec_nothing tmp_name engine_q_fails inv_plain None world_x
  = (Raise FileExistsError, world_x).
Proof.
  apply (existing_workdir_is_fatal elements exec_nothing tmp_name
           engine_q_fails inv_plain None "x" world_x).
  - reflexivity.
  - reflexivity.
  - reflexivity.
  - exact x_in_world_x.
Defined.




(** ** Jobs and tasks *)

Lemma keeps_jobs_ret {A} (a : A) : keeps_jobs (ret a).
Proof. intros w r w' H. by injection H as _ <-. Qed.

Lemma keeps_jobs_bind {A B} (m : M A) (k : A → M B) :
  keeps_jobs m → (∀ a, keeps_jobs (k a)) → keeps_jobs (bind m k).
Proof.
  intros Hm Hk w r w' H. unfold bind in H.
  destruct (m w) as [[a|e] w1] eqn:E.
  - apply Hk in H. apply Hm in E. congruence.
  - injection H as _ <-. by apply Hm in E.
Qed.

Lemma keeps_jobs_backup_scan my_workdir fuel backup_idx :
  keeps_jobs (backup_scan my_workdir fuel backup_idx).
Proof.
  revert backup_idx. induction fuel as [|fuel IH]; intros idx; simpl.
  - intros w r w' H. by injection H as _ <-.
  - apply keeps_jobs_bind.
    + intros w r w' H. by injection H as _ <-.
    + intros []; [apply IH | apply keeps_jobs_ret].
Qed.

Lemma keeps_jobs_early_log workdir msg : keeps_jobs (early_log workdir msg).
Proof. intros w r w' H. by injection H as _ <-. Qed.

Lemma keeps_jobs_move src dst : keeps_jobs (move src dst).
Proof.
  intros w r w' H. unfold move in H.
  destruct (bool_decide _); by injection H as _ <-.
Qed.

Lemma keeps_jobs_makedirs p : keeps_jobs (makedirs p).
Proof.
  intros w r w' H. unfold makedirs in H.
  destruct (bool_decide _); by injection H as _ <-.
Qed.

Lemma keeps_jobs_rmtree p : keeps_jobs (rmtree_ignore_errors p).
Proof. intros w r w' H. by injection H as _ <-. Qed.

Lemma keeps_jobs_when {A} (b : bool) (m : M ()) (k : M A) :
  keeps_jobs m → keeps_jobs k →
  keeps_jobs (bind (if b then m else ret ()) (λ _, k)).
Proof.
  intros Hm Hk. apply keeps_jobs_bind; [| done].
  destruct b; [done | apply keeps_jobs_ret].
Qed.

Lemma keeps_jobs_backup_step my_workdir : keeps_jobs (backup_step my_workdir).
Proof.
  unfold backup_step. apply keeps_jobs_bind.
  - intros w r w' H. by injection H as _ <-.
  - intros fuel. apply keeps_jobs_bind; [apply keeps_jobs_backup_scan |].
    intros idx. apply keeps_jobs_bind; [apply keeps_jobs_early_log |].
    intros _. apply keeps_jobs_move.
Qed.

Lemma keeps_jobs_force_step inv my_workdir :
  keeps_jobs (force_step inv my_workdir).
Proof.
  unfold force_step. apply keeps_jobs_bind; [apply keeps_jobs_early_log |].
  intros _. destruct (truthy _); [apply keeps_jobs_rmtree | apply keeps_jobs_ret].
Qed.

Lemma keeps_jobs_prepare inv my_workdir :
  keeps_jobs (prepare_workdir inv my_workdir).
Proof.
  unfold prepare_workdir.
  apply keeps_jobs_when; [apply keeps_jobs_backup_step |].
  apply keeps_jobs_when; [apply keeps_jobs_force_step |].
  apply keeps_jobs_makedirs.
Qed.

Lemma Forall_named (l : list string) :
  Forall (λ t : option string, t ≠ None) (Some <$> l).
Proof. induction l as [|x l IH]; constructor; done. Qed.

Section JobsAndTasks.

Variable set_iter : gset string → list string.
Variable exec_pycode :
  string → option string → list string → option (list string).
Variable mkdtemp_name : gset string → string.
Variable engine :
  list string → option string → string → list string →
  list (string * string) → gset string → result (Z * gset string).

Local Abbreviation run := (run_job set_iter exec_pycode mkdtemp_name engine).
Local Abbreviation finish := (run_in set_iter exec_pycode engine).

Lemma run_in_jobs inv taskname my_workdir tmp w rc w' :
  finish inv taskname my_workdir tmp w = (Ok rc, w') →
  job_tasks w' = (job_tasks w ++ [taskname])%list.
Proof.
  unfold run_in, bind, lift, job_run.
  destruct (read_sbyconfig _ _ _ _) as [cfg|e]; [| done].
  destruct (engine _ _ _ _ _ _) as [[rc' paths]|e]; [| done].
  unfold job_tasks. destruct tmp; simpl; intros H; injection H as _ <-;
    simpl; by rewrite fmap_app.
Qed.

(** A task that returns has built exactly one job, under its own name. *)
Lemma run_job_jobs inv taskname w rc w' :
  run inv taskname w = (Ok rc, w') →
  job_tasks w' = (job_tasks w ++ [taskname])%list.
Proof.
  destruct (resolve_dir inv taskname) as [d|] eqn:Hd.
  - rewrite (run_job_named _ _ _ _ _ _ d) by done.
    destruct (prepare_workdir inv d w) as [[[]|e] w1] eqn:Hp; [| done].
    apply keeps_jobs_prepare in Hp. intros H. apply run_in_jobs in H.
    unfold job_tasks in *. by rewrite <- Hp.
  - rewrite run_job_temporary by done. intros H. by apply run_in_jobs in H.
Qed.

Lemma run_tasks_jobs inv all todo acc w rc w' :
  run_tasks set_iter exec_pycode mkdtemp_name engine inv all todo acc w
  = (Ok rc, w') →
  job_tasks w' = (job_tasks w ++ todo)%list.
Proof.
  revert acc w. induction todo as [|t todo IH]; intros acc w; simpl.
  - intros H. injection H as _ <-. by rewrite app_nil_r.
  - unfold bind at 1.
    destruct (run_task set_iter exec_pycode mkdtemp_name engine inv all t w)
      as [[rc1|e] w1] eqn:Et; [| done].
    intros H. apply IH in H. rewrite H.
    unfold run_task in Et. destruct (_ || _); [| done].
    apply run_job_jobs in Et. rewrite Et. by rewrite <- List.app_assoc.
Qed.

(** The start-up changes nothing, and returns what [resolve_tasknames]
    found. *)
Lemma startup_result inv w r w' :
  startup set_iter exec_pycode inv w = (r, w') →
  w' = w
  ∧ ∀ names, r = Ok names →
             resolve_tasknames set_iter exec_pycode inv = Ok names.
Proof.
  unfold startup, bind, lift, ret, raise.
  destruct (sbyfile inv) as [f|]; [destruct (Py.endswith f ".sby") |];
    destruct (resolve_tasknames _ _ inv) as [names|e];
    try destruct (_ || _);
    intros H; injection H as <- <-; split; try done;
    intros names' Hn; by injection Hn as <-.
Qed.

(** X14. When the script runs to its end, the engine has been started
    exactly once for each task name, in the order of the names: the names
    given on the command line, else those found in the description, else the
    one implicit task. *)
Theorem one_job_per_task inv w rc w' :
  main set_iter exec_pycode mkdtemp_name engine inv w = (Ok rc, w') →
  ∃ names,
    resolve_tasknames set_iter exec_pycode inv = Ok names
    ∧ job_tasks w' = (job_tasks w ++ names)%list.
Proof.
  unfold main, bind.
  destruct (startup set_iter exec_pycode inv w) as [[names|e] w1] eqn:Es;
    [| done].
  apply startup_result in Es as [-> Hnames].
  intros H. exists names. split; [by apply Hnames |].
  by apply run_tasks_jobs in H.
Qed.


End JobsAndTasks.

Lemma one_job_per_task_pqr :
  ∃ names,
    resolve_tasknames elements exec_nothing inv_pqr = Ok names
    ∧ job_tasks
        {| fs := {["x_r"]} ∪ ({["x_q"]} ∪ ({["x_p"]} ∪ ∅));
           early_logmsgs := [];
           jobs := [([], Some "p", "x_p"); ([], Some "q", "x_q");
                    ([], Some "r", "x_r")] |}
      = (job_tasks world_empty ++ names)%list.
Proof.
  apply (one_job_per_task elements exec_nothing tmp_name engine_q_fails
           inv_pqr world_empty 1%Z).
  vm_compute. reflexivity.
Defined.


(** ** The backup loop *)

(** X16. The backup loop always ends: whatever exists on the file system,
    any bound above the number of existing paths is enough for the scan to
    stop, at the smallest index whose backup name is free, and that index is
    at most the number of existing paths. *)
Theorem backup_scan_enough_fuel my_workdir w (fuel : nat) :
  (S (size (fs w)) ≤ fuel)%nat →
  ∃ N : nat,
    backup_scan my_workdir fuel 0 w = (Ok N, w)
    ∧ (N ≤ size (fs w))%nat
    ∧ (backup_name my_workdir N ∉ fs w)
    ∧ ∀ k : nat, (k < N)%nat → backup_name my_workdir k ∈ fs w.
Proof.
  intros Hfuel.
  destruct (backup_name_free my_workdir (fs w)) as (j & Hj & Hfree).
  destruct (backup_scan_least my_workdir fuel 0 w j)
    as (N & HN & _ & HNj & HNfree & Hbelow); [lia | lia | done |].
  exists N. split; [done |]. split; [lia |]. split; [done |].
  intros k Hk. apply Hbelow; lia.
Qed.

Lemma backup_scan_enough_fuel_x :
  ∃ N : nat,
    backup_scan "x" 5 0 world_x_bak0 = (Ok N, world_x_bak0)
    ∧ (N ≤ size (fs world_x_bak0))%nat
    ∧ (backup_name "x" N ∉ fs world_x_bak0)
    ∧ ∀ k : nat, (k < N)%nat → backup_name "x" k ∈ fs world_x_bak0.
Proof.
  apply (backup_scan_enough_fuel "x" world_x_bak0 5).
  vm_compute. lia.
Defined.

(** ** Where the preprocessor can fail *)

Lemma rev_app_acc (s acc : string) :
  String.rev_app s acc = String.rev_app s "" +:+ acc.
Proof.
  revert acc. induction s as [|c s IH]; intros acc; simpl; [done |].
  rewrite (IH (String c acc)), (IH (String c "")).
  by rewrite app_assoc.
Qed.

Lemma rev_app_app (a b acc : string) :
  String.rev_app (a +:+ b) acc = String.rev_app b (String.rev_app a acc).
Proof.
  revert acc. induction a as [|c a IH]; intros acc; [done |].
  rewrite app_cons. simpl. apply IH.
Qed.

(** [endswith] sees every suffix. *)
Lemma endswith_app (p suffix : string) :
  Py.endswith (p +:+ suffix) suffix = true.
Proof.
  unfold Py.endswith, String.rev.
  rewrite rev_app_app, (rev_app_acc suffix (String.rev_app p "")).
  apply prefix_app.
Qed.

Lemma drop_is_suffix (n : nat) (s : string) : ∃ p, s = p +:+ Py.drop n s.
Proof.
  revert s. induction n as [|n IH]; intros s; [by exists "" |].
  destruct s as [|c s]; [by exists "" |].
  destruct (IH s) as [p Hp]. exists (String c p). simpl.
  by rewrite app_cons, <- Hp.
Qed.

Lemma lstrip_is_suffix (s : string) : ∃ p, s = p +:+ Py.lstrip s.
Proof.
  induction s as [|c s [p Hp]]; [by exists "" |]. simpl.
  destruct (Py.is_space c); [| by exists ""].
  exists (String c p). by rewrite app_cons, <- Hp.
Qed.

Lemma find_tag_is_suffix tags active line rest m :
  find_tag tags active line = Some (rest, m) → ∃ p, line = p +:+ rest.
Proof.
  assert (∀ n, ∃ p, line = p +:+ Py.lstrip (Py.drop n line)) as Hcut.
  { intros n. destruct (drop_is_suffix n line) as [p1 H1].
    destruct (lstrip_is_suffix (Py.drop n line)) as [p2 H2].
    exists (p1 +:+ p2). by rewrite app_assoc, <- H2. }
  induction tags as [|t tags IH]; simpl; [done |].
  destruct (Py.startswith line (t +:+ ":"));
    [intros H; injection H as <- _; apply Hcut |].
  destruct (Py.startswith line ("~" +:+ t +:+ ":"));
    [intros H; injection H as <- _; apply Hcut | exact IH].
Qed.

Section NoFailure.

Variable set_iter : gset string → list string.
Variable exec_pycode :
  string → option string → list string → option (list string).

Lemma tag_loop_is_suffix st line :
  ∃ p, line = p +:+ to_line (tag_loop set_iter st line).
Proof.
  unfold tag_loop.
  destruct (find_tag _ _ _) as [[rest m]|] eqn:E; [| by exists ""].
  apply find_tag_is_suffix in E. by destruct (String.eqb rest "").
Qed.

Lemma sink_raises taskname st line e :
  sink exec_pycode taskname st line = Raise e →
  line = pycode_end ∧ (e = TypeError ∨ e = ExecError).
Proof.
  unfold sink. destruct (tasks_section st).
  - destruct (Py.split line); [done |]. by destruct (add_tags _ _ _ _).
  - destruct (String.eqb line tasks_header); [done |].
    destruct (String.eqb line pycode_begin); [done |].
    destruct (String.eqb line pycode_end) eqn:E.
    + apply String.eqb_eq in E. destruct (pycode st).
      * destruct (exec_pycode _ _ _); [done |].
        intros H. injection H as <-. split; [done | by right].
      * intros H. injection H as <-. split; [done | by left].
    + by destruct (pycode st).
Qed.

Lemma scan_line_raises taskname st raw e :
  scan_line set_iter exec_pycode taskname st raw = Raise e →
  Py.endswith (strip_eol raw) pycode_end = true
  ∧ (e = TypeError ∨ e = ExecError).
Proof.
  unfold scan_line. destruct (_ && _); [done |].
  destruct (_ || _); [done |].
  intros [Hline He]%sink_raises. split; [| done].
  destruct (tag_loop_is_suffix st (strip_eol raw)) as [p Hp].
  rewrite Hline in Hp. rewrite Hp. apply endswith_app.
Qed.

(** X17. The preprocessor fails at an end-marker and nowhere else: a
    description none of whose lines ends in [--pycode-end--] is preprocessed
    without an exception for every task name, whatever its tags, blocks
    and sections look like; unterminated blocks and unknown tags are no
    errors. *)
Theorem read_sbyconfig_total lines taskname :
  Forall (λ raw, Py.endswith (strip_eol raw) pycode_end = false) lines →
  ∃ cfg tasks,
    read_sbyconfig set_iter exec_pycode lines taskname = Ok (cfg, tasks).
Proof.
  intros Hlines. unfold read_sbyconfig, scan.
  assert (∀ st, ∃ st',
            scan_from set_iter exec_pycode taskname st lines = Ok st') as H.
  { induction Hlines as [|raw lines Hraw Hlines IH]; intros st;
      [by exists st |].
    simpl.
    destruct (scan_line set_iter exec_pycode taskname st raw) as [st1|e] eqn:E;
      [apply IH |].
    apply scan_line_raises in E as [E _]. congruence. }
  destruct (H scan_init) as [st' ->]. by eexists _, _.
Qed.

End NoFailure.

Lemma read_sbyconfig_total_unterminated :
  ∃ cfg tasks,
    read_sbyconfig elements exec_nothing
      ["[tasks]"; "a"; "[options]"; "a:"; "mode bmc"; "b: depth 5"]
      (Some "a")
    = Ok (cfg, tasks).
Proof.
  apply (read_sbyconfig_total elements exec_nothing).
  repeat constructor.
Defined.

(** * The command line *)

Lemma dict_get_set (key tool value : string) (d : list (string * string)) :
  dict_get tool (dict_set key value d)
  = if String.eqb key tool then Some value else dict_get tool d.
Proof.
  induction d as [|[k v] d IH]; simpl.
  - done.
  - destruct (String.eqb k key) eqn:Ek; simpl.
    + apply String.eqb_eq in Ek as ->. by destruct (String.eqb key tool).
    + rewrite IH. destruct (String.eqb k tool) eqn:Et; [| done].
      apply String.eqb_eq in Et as ->. by rewrite String.eqb_sym, Ek.
Qed.

Lemma option_values_cons k o a opts :
  option_values k ((o, a) :: opts)
  = if String.eqb o k then a :: option_values k opts
    else option_values k opts.
Proof. unfold option_values. simpl. by destruct (String.eqb o k). Qed.

Lemma last_or_cons {A} (x : A) (l : list A) (d : option A) :
  match last (x :: l) with Some a => Some a | None => d end
  = match last l with Some a => Some a | None => Some x end.
Proof. rewrite last_cons. by destruct (last l). Qed.

Lemma eqb_long_option (tool tool' : string) :
  String.eqb ("--" +:+ tool) ("--" +:+ tool') = String.eqb tool tool'.
Proof. reflexivity. Qed.

(** What one option does to each variable. *)
Lemma set_option_spec inv o a inv' :
  set_option inv o a = Some inv' →
  sbyfile inv' = sbyfile inv
  ∧ sbydata inv' = sbydata inv
  ∧ workdir inv' = (if String.eqb o "-d" then Some a else workdir inv)
  ∧ opt_force inv' = (String.eqb o "-f" || opt_force inv)
  ∧ opt_backup inv' = (String.eqb o "-b" || opt_backup inv)
  ∧ opt_tmpdir inv' = (String.eqb o "-t" || opt_tmpdir inv)
  ∧ tasknames inv'
    = (tasknames inv ++ if String.eqb o "-T" then [a] else [])%list
  ∧ ∀ tool, dict_get tool (exe_paths inv')
            = if String.eqb o ("--" +:+ tool) then Some a
              else dict_get tool (exe_paths inv).
Proof.
  unfold set_option.
  repeat match goal with
         | |- (if String.eqb o ?s then _ else _) = _ → _ =>
             let E := fresh "E" in
             destruct (String.eqb o s) eqn:E;
             [apply String.eqb_eq in E; subst o; intros H; injection H as <-;
              simpl; rewrite ?app_nil_r;
              repeat split; try done; intros tool;
              rewrite ?dict_get_set; try done;
              by destruct tool as [|[[] [] [] [] [] [] [] []] ?]
             |]
         end.
  done.
Qed.

(** The loop over the options in closed form, from any starting values. *)
Lemma set_options_spec inv opts inv' :
  set_options inv opts = Some inv' →
  sbyfile inv' = sbyfile inv
  ∧ sbydata inv' = sbydata inv
  ∧ workdir inv' = match last (option_values "-d" opts) with
                   | Some a => Some a
                   | None => workdir inv
                   end
  ∧ opt_force inv' = (option_given "-f" opts || opt_force inv)
  ∧ opt_backup inv' = (option_given "-b" opts || opt_backup inv)
  ∧ opt_tmpdir inv' = (option_given "-t" opts || opt_tmpdir inv)
  ∧ tasknames inv' = (tasknames inv ++ option_values "-T" opts)%list
  ∧ ∀ tool, dict_get tool (exe_paths inv')
            = match last (option_values ("--" +:+ tool) opts) with
              | Some a => Some a
              | None => dict_get tool (exe_paths inv)
              end.
Proof.
  revert inv. induction opts as [|[o a] opts IH]; intros inv; simpl.
  - intros H. injection H as <-. rewrite app_nil_r. repeat split; done.
  - destruct (set_option inv o a) as [inv1|] eqn:E1; [| done].
    intros H. apply IH in H as (H1 & H2 & H3 & H4 & H5 & H6 & H7 & H8).
    apply set_option_spec in E1 as (E1 & E2 & E3 & E4 & E5 & E6 & E7 & E8).
    rewrite H1, H2, H3, H4, H5, H6, H7, E1, E2, E3, E4, E5, E6, E7.
    rewrite !option_values_cons.
    split; [done |]. split; [done |].
    split; [destruct (String.eqb o "-d"); [by rewrite last_or_cons | done] |].
    split; [by rewrite orb_assoc, (orb_comm (option_given _ _)) |].
    split; [by rewrite orb_assoc, (orb_comm (option_given _ _)) |].
    split; [by rewrite orb_assoc, (orb_comm (option_given _ _)) |].
    split; [destruct (String.eqb o "-T"); by rewrite <- List.app_assoc |].
    intros tool. rewrite H8, E8, option_values_cons.
    destruct (String.eqb o ("--" +:+ tool)); [by rewrite last_or_cons | done].
Qed.

(** X18. The command line in closed form.  When no option is unknown:
    the description file is the first positional argument; the working
    directory is the argument of the last [-d]; a flag is set exactly when
    its option occurs; the task names are the positional arguments after the
    first when there are any, and the arguments of the [-T] options, in
    order, otherwise; the executable of a tool is the argument of the last
    option of its name. *)
Theorem parse_cmdline_spec lines opts args inv :
  parse_cmdline lines opts args = Some inv →
  sbyfile inv = head args
  ∧ sbydata inv = lines
  ∧ workdir inv = last (option_values "-d" opts)
  ∧ opt_force inv = option_given "-f" opts
  ∧ opt_backup inv = option_given "-b" opts
  ∧ opt_tmpdir inv = option_given "-t" opts
  ∧ tasknames inv = match tail args with
                    | [] => option_values "-T" opts
                    | names => names
                    end
  ∧ ∀ tool, dict_get tool (exe_paths inv)
            = last (option_values ("--" +:+ tool) opts).
Proof.
  unfold parse_cmdline.
  destruct (set_options (invocation_init lines) opts) as [inv1|] eqn:E;
    [| done].
  intros H. injection H as <-.
  apply set_options_spec in E as (H1 & H2 & H3 & H4 & H5 & H6 & H7 & H8).
  simpl in H1, H2, H3, H4, H5, H6, H7, H8. rewrite orb_false_r in H4, H5, H6.
  assert (∀ tool, dict_get tool (exe_paths inv1)
                  = last (option_values ("--" +:+ tool) opts)) as H8'.
  { intros tool. rewrite H8.
    by destruct (last (option_values ("--" +:+ tool) opts)). }
  assert (workdir inv1 = last (option_values "-d" opts)) as H3'
    by (rewrite H3; by destruct (last (option_values "-d" opts))).
  destruct args as [|f [|name names]]; simpl; repeat split; done.
Qed.

(** X19. The one way the options stop the program: [usage()] is reached,
    and the process exits with code 1 before anything else is done, exactly
    when some option is not among the eleven the loop knows. *)
Theorem parse_cmdline_usage lines opts args :
  parse_cmdline lines opts args = None
  ↔ Exists (λ oa, fst oa ∉ known_options) opts.
Proof.
  unfold parse_cmdline.
  assert (∀ inv o a, set_option inv o a = None ↔ o ∉ known_options) as Hone.
  { intros inv o a. unfold set_option, known_options.
    repeat match goal with
           | |- context [String.eqb o ?s] =>
               let E := fresh "E" in
               destruct (String.eqb o s) eqn:E;
               [apply String.eqb_eq in E; subst o; split; [done |];
                intros Hn; exfalso; apply Hn;
                repeat (first [by left | right])
               | apply String.eqb_neq in E]
           end.
    split; [| done]. intros _ Hin.
    repeat (apply elem_of_cons in Hin as [->|Hin]; [done |]).
    by apply elem_of_nil in Hin. }
  assert (∀ inv, set_options inv opts = None
                 ↔ Exists (λ oa, fst oa ∉ known_options) opts) as Hall.
  { induction opts as [|[o a] opts IH]; intros inv; simpl.
    - split; [done | by intros H%Exists_nil].
    - rewrite Exists_cons. simpl.
      destruct (set_option inv o a) as [inv1|] eqn:E.
      + rewrite IH. split; [by right |]. intros [Hbad|H]; [| done].
        apply (Hone inv o a) in Hbad. congruence.
      + split; [| done]. intros _. left. by apply (Hone inv o a). }
  destruct (set_options (invocation_init lines) opts) as [inv|] eqn:E.
  - split; [done |]. intros H.
    apply (Hall (invocation_init lines)) in H. congruence.
  - split; [| done]. intros _. by apply (Hall (invocation_init lines)).
Qed.

Lemma parse_cmdline_spec_sample :
  ∃ inv,
    parse_cmdline [] opts_sample ["x.sby"] = Some inv
    ∧ sbyfile inv = Some "x.sby"
    ∧ sbydata inv = []
    ∧ workdir inv = Some "work"
    ∧ opt_force inv = true
    ∧ opt_backup inv = false
    ∧ opt_tmpdir inv = false
    ∧ tasknames inv = ["p"]
    ∧ ∀ tool, dict_get tool (exe_paths inv)
              = last (option_values ("--" +:+ tool) opts_sample).
Proof.
  eexists. split; [reflexivity |].
  exact (parse_cmdline_spec [] opts_sample ["x.sby"] _ eq_refl).
Defined.
